(** * Ring-resonator permittivity extraction: a shallow embedding

    The embedded program is [substrate_permittivity_extraction.py]: peak
    detection on an S21 magnitude trace ([find_s21_peaks]), the -3 dB
    loss-tangent estimate ([calculate_loss_tangent]), the inverted
    microstrip relation ([microstrip_eps_r]), the optional length
    calibration ([estimate_effective_length]) and the straight-line driver
    [main], from the point where the Touchstone file has been read.

    Numbers.  The script computes with [float64] values.  The functions
    are written once, over an interface [Float64] of the operations the
    script uses, and the interface has two instances:
    - [binary64]: Rocq's primitive IEEE-754 binary64 numbers, the
      arithmetic the script performs; the definitions run on it;
    - [exact], on the type [xreal]: the reals extended with [+inf],
      [-inf] and [NaN], i.e. the same special values with exact arithmetic
      on the finite ones.  The algebraic properties of the formulas are
      stated on this instance; rounding is not part of them.
    Properties that only depend on the control flow are proved for every
    instance that satisfies the two comparison laws of [Float64Order].

    Effects.  Python exceptions are results [Ok] / [Raise]; what a run
    prints and saves is a list of events, threaded by the monad [io].

    Libraries.  [np.median] and [scipy.signal.find_peaks] with a [height]
    condition are embedded after their documented behaviour.  The means
    of the DataFrame columns are only printed: the run records which
    columns are averaged and leaves their value to pandas. *)

From Stdlib Require Import String Floats.
From Stdlib Require Import Reals Lra Lia ZArith Bool Arith PeanoNat List Sorted.
Import ListNotations.

(** * The number interface *)

Class Float64 (T : Type) : Type := {
  of_Z : Z -> T;          (* integer literals and int -> float conversion *)
  fadd : T -> T -> T;
  fsub : T -> T -> T;
  fmul : T -> T -> T;
  fdiv : T -> T -> T;     (* numpy true_divide: never raises *)
  fsqrt : T -> T;         (* np.sqrt: NaN on a negative argument *)
  flt : T -> T -> bool;   (* x < y, false when either side is NaN *)
  fle : T -> T -> bool;   (* x <= y *)
  feq : T -> T -> bool;   (* x == y *)
  fnan : T;               (* np.nan *)
  fisnan : T -> bool
}.

(** ** IEEE-754 binary64 *)

Module B64.

(** [float(z)] for a Python [int]: the binary64 number nearest to [z],
    ties to even.  Python raises [OverflowError] where the rounded value
    would be infinite ([2^1024 - 2^970 <= |z|]); that conversion only
    occurs for the configured calibration mode number, and the statements
    on calibrated runs bound it by [int_converts]. *)
Definition of_Z (z : Z) : float :=
  SF2Prim (binary_normalize prec emax z 0 false).

Definition isnan (x : float) : bool := negb (PrimFloat.eqb x x).

End B64.

#[export] Instance binary64 : Float64 float := {|
  of_Z := B64.of_Z;
  fadd := PrimFloat.add;
  fsub := PrimFloat.sub;
  fmul := PrimFloat.mul;
  fdiv := PrimFloat.div;
  fsqrt := PrimFloat.sqrt;
  flt := PrimFloat.ltb;
  fle := PrimFloat.leb;
  feq := PrimFloat.eqb;
  fnan := PrimFloat.nan;
  fisnan := B64.isnan
|}.

(** ** Extended reals: exact arithmetic with the IEEE special values *)

Inductive xreal : Type :=
| Fin (r : R)
| PInf
| NInf
| NaN.

Module XR.

Local Open Scope R_scope.

Definition ltb (a b : R) : bool := if Rlt_dec a b then true else false.
Definition leb (a b : R) : bool := if Rle_dec a b then true else false.
Definition eqb (a b : R) : bool := if Req_dec_T a b then true else false.

Definition neg (x : xreal) : xreal :=
  match x with
  | Fin r => Fin (- r)
  | PInf => NInf
  | NInf => PInf
  | NaN => NaN
  end.

Definition add (x y : xreal) : xreal :=
  match x, y with
  | NaN, _ | _, NaN => NaN
  | Fin a, Fin b => Fin (a + b)
  | PInf, NInf | NInf, PInf => NaN
  | PInf, _ | _, PInf => PInf
  | NInf, _ | _, NInf => NInf
  end.

Definition sub (x y : xreal) : xreal := add x (neg y).

(** An infinity of sign [s] ([true] is [+]) scaled by the finite [r]. *)
Definition scale_inf (s : bool) (r : R) : xreal :=
  if eqb r 0 then NaN
  else if Bool.eqb s (ltb 0 r) then PInf else NInf.

Definition mul (x y : xreal) : xreal :=
  match x, y with
  | NaN, _ | _, NaN => NaN
  | Fin a, Fin b => Fin (a * b)
  | Fin a, PInf | PInf, Fin a => scale_inf true a
  | Fin a, NInf | NInf, Fin a => scale_inf false a
  | PInf, PInf | NInf, NInf => PInf
  | PInf, NInf | NInf, PInf => NInf
  end.

(** Zero carries no sign here: a non-zero finite value divided by zero
    takes the sign of the dividend. *)
Definition div (x y : xreal) : xreal :=
  match x, y with
  | NaN, _ | _, NaN => NaN
  | Fin a, Fin b =>
      if eqb b 0 then
        if eqb a 0 then NaN else if ltb 0 a then PInf else NInf
      else Fin (a / b)
  | Fin _, (PInf | NInf) => Fin 0
  | PInf, Fin b => if ltb b 0 then NInf else PInf
  | NInf, Fin b => if ltb b 0 then PInf else NInf
  | (PInf | NInf), (PInf | NInf) => NaN
  end.

Definition sqrt (x : xreal) : xreal :=
  match x with
  | Fin r => if ltb r 0 then NaN else Fin (R_sqrt.sqrt r)
  | PInf => PInf
  | NInf | NaN => NaN
  end.

Definition lt (x y : xreal) : bool :=
  match x, y with
  | NaN, _ | _, NaN => false
  | Fin a, Fin b => ltb a b
  | NInf, (Fin _ | PInf) => true
  | Fin _, PInf => true
  | _, _ => false
  end.

Definition eq (x y : xreal) : bool :=
  match x, y with
  | Fin a, Fin b => eqb a b
  | PInf, PInf | NInf, NInf => true
  | _, _ => false
  end.

Definition le (x y : xreal) : bool := lt x y || eq x y.

Definition isnan (x : xreal) : bool :=
  match x with NaN => true | _ => false end.

End XR.

#[export] Instance exact : Float64 xreal := {|
  of_Z := fun z => Fin (IZR z);
  fadd := XR.add;
  fsub := XR.sub;
  fmul := XR.mul;
  fdiv := XR.div;
  fsqrt := XR.sqrt;
  flt := XR.lt;
  fle := XR.le;
  feq := XR.eq;
  fnan := NaN;
  fisnan := XR.isnan
|}.

(** * Python exceptions, diagnostics and the driver's monad *)

Inductive exn : Type :=
| ZeroDivisionError
| IndexError
| RuntimeError (msg : string).

Inductive result (A : Type) : Type :=
| Ok (a : A)
| Raise (e : exn).

Arguments Ok {A} a.
Arguments Raise {A} e.

Definition rbind {A B} (r : result A) (k : A -> result B) : result B :=
  match r with
  | Ok a => k a
  | Raise e => Raise e
  end.

Fixpoint rmap {A B} (f : A -> result B) (l : list A) : result (list B) :=
  match l with
  | [] => Ok []
  | x :: l' =>
      rbind (f x) (fun y => rbind (rmap f l') (fun ys => Ok (y :: ys)))
  end.

(** One row of the result table (the columns of the DataFrame). *)
Record row (T : Type) : Type := Row {
  mode_n : Z;
  freq_Hz : T;
  eps_eff : T;
  eps_r : T;
  loss_tan : T
}.

Arguments Row {T} mode_n freq_Hz eps_eff eps_r loss_tan.
Arguments mode_n {T} r.
Arguments freq_Hz {T} r.
Arguments eps_eff {T} r.
Arguments eps_r {T} r.
Arguments loss_tan {T} r.

(** The columns [df.eps_eff], [df.eps_r] and [df.loss_tan]. *)
Definition df_eps_eff {T} (df : list (row T)) : list T := map (@eps_eff T) df.
Definition df_eps_r {T} (df : list (row T)) : list T := map (@eps_r T) df.
Definition df_loss_tan {T} (df : list (row T)) : list T := map (@loss_tan T) df.

(** What a run writes: console lines, the CSV file and the figures.
    [PrintAverages] stands for the three lines that print
    [df.eps_eff.mean()], [df.eps_r.mean()] and [df.loss_tan.mean()]; it
    records the columns that pandas averages, not the value of the means. *)
Inductive event (T : Type) : Type :=
| PrintThreshold (threshold : T)
| PrintCalibration (L : T)
| PrintModes (n_modes : list Z)
| PrintTable (df : list (row T))
| PrintAverages (col_eps_eff col_eps_r col_loss_tan : list T)
| SaveCsv (path : string) (df : list (row T))
| SaveFigure (path : string).

Arguments PrintThreshold {T} threshold.
Arguments PrintCalibration {T} L.
Arguments PrintModes {T} n_modes.
Arguments PrintTable {T} df.
Arguments PrintAverages {T} col_eps_eff col_eps_r col_loss_tan.
Arguments SaveCsv {T} path df.
Arguments SaveFigure {T} path.

(** A computation that writes events and either returns or raises. *)
Definition io (T A : Type) : Type := (list (event T) * result A)%type.

Definition ret {T A} (a : A) : io T A := ([], Ok a).
Definition emit {T} (e : event T) : io T unit := ([e], Ok tt).
Definition raise {T A} (e : exn) : io T A := ([], Raise e).
Definition lift {T A} (r : result A) : io T A := ([], r).

Definition bind {T A B} (m : io T A) (k : A -> io T B) : io T B :=
  match m with
  | (out, Ok a) => let (out', r) := k a in (out ++ out', r)
  | (out, Raise e) => (out, Raise e)
  end.

Declare Scope io_scope.
Delimit Scope io_scope with io.
Notation "x <- m ;; k" := (bind m (fun x => k))
  (at level 100, m at next level, right associativity) : io_scope.
Notation "m ;;; k" := (bind m (fun _ => k))
  (at level 100, right associativity) : io_scope.

Declare Scope res_scope.
Delimit Scope res_scope with res.
Notation "x <~ r ;; k" := (rbind r (fun x => k))
  (at level 100, r at next level, right associativity) : res_scope.

(** * The program *)

Section Program.

Context {T : Type} `{Float64 T}.

Local Open Scope res_scope.
Local Open Scope io_scope.

(** Speed of light in vacuum (m/s): [C0 = 299_792_458.0]. *)
Definition C0 : T := of_Z 299792458.

(** ** Python and numpy primitives the script relies on *)

(** [a[i]] for a non-negative index: [IndexError] when out of range. *)
Definition getitem (a : list T) (i : nat) : result T :=
  match nth_error a i with
  | Some x => Ok x
  | None => Raise IndexError
  end.

(** [x / y] on two Python floats: raises on a zero divisor. *)
Definition py_truediv (x y : T) : result T :=
  if feq y (of_Z 0) then Raise ZeroDivisionError else Ok (fdiv x y).

Fixpoint insert_sorted (x : T) (l : list T) : list T :=
  match l with
  | [] => [x]
  | y :: l' => if fle x y then x :: l else y :: insert_sorted x l'
  end.

Definition sort (l : list T) : list T := fold_right insert_sorted [] l.

(** [np.median]: NaN for an empty array or one holding a NaN; otherwise
    [np.mean] of the middle element of the sorted array, or of the two
    middle ones.  [np.mean] is a sum that starts from [0.0], divided by
    the number of elements. *)
Definition np_median (a : list T) : T :=
  if existsb fisnan a then fnan
  else
    let s := sort a in
    let n := length a in
    if n =? 0 then fnan
    else if Nat.even n then
      fdiv (fadd (fadd (of_Z 0) (nth (n / 2 - 1) s fnan)) (nth (n / 2) s fnan))
           (of_Z 2)
    else fdiv (fadd (of_Z 0) (nth (n / 2) s fnan)) (of_Z 1).

(** *** [scipy.signal.find_peaks(x, height=...)]

    The local-maxima scan of scipy ([_local_maxima_1d]): a maximum is a
    run of equal samples with a strictly smaller sample on each side; the
    run is reported by its middle index, rounded down.  [skip_equal] is
    the inner loop

      while i_ahead < i_max and x[i_ahead] == x[i]: i_ahead += 1

    with [k = i_max - i_ahead] as its variant. *)
Fixpoint skip_equal (x : list T) (v : T) (i_ahead k : nat) : nat :=
  match k with
  | 0 => i_ahead
  | S k' =>
      if feq (nth i_ahead x fnan) v then skip_equal x v (S i_ahead) k'
      else i_ahead
  end.

(** The outer loop [while i < i_max]; every iteration advances [i], so
    [fuel >= i_max - i] iterations are never used up
    (lemma [local_maxima_loop_fuel]). *)
Fixpoint local_maxima_loop (x : list T) (i_max fuel i : nat) : list nat :=
  match fuel with
  | 0 => []
  | S fuel' =>
      if i <? i_max then
        if flt (nth (i - 1) x fnan) (nth i x fnan) then
          let i_ahead := skip_equal x (nth i x fnan) (i + 1) (i_max - (i + 1)) in
          if flt (nth i_ahead x fnan) (nth i x fnan) then
            (i + (i_ahead - 1)) / 2
              :: local_maxima_loop x i_max fuel' (i_ahead + 1)
          else local_maxima_loop x i_max fuel' (i + 1)
        else local_maxima_loop x i_max fuel' (i + 1)
      else []
  end.

Definition local_maxima_1d (x : list T) : list nat :=
  local_maxima_loop x (length x - 1) (length x) 1.

(** The [height] condition keeps the maxima with [height <= x[peak]]. *)
Definition find_peaks (x : list T) (height : T) : list nat :=
  filter (fun p => fle height (nth p x fnan)) (local_maxima_1d x).

(** ** [microstrip_eps_r]

    On the call path of [main], [h] and [w] are Python floats, so
    [12.0 * h / w] is Python's division; [np.sqrt] returns a numpy scalar
    and everything after it is numpy arithmetic, applied to each entry of
    the array [eps_eff]. *)
Definition microstrip_eps_r (eps_eff : list T) (h w : T) : result (list T) :=
  q <~ py_truediv (fmul (of_Z 12) h) w ;;
  let a := fdiv (of_Z 1) (fsqrt (fadd (of_Z 1) q)) in
  Ok (map (fun e =>
             fdiv (fsub (fadd (fmul (of_Z 2) e) a) (of_Z 1))
                  (fadd (of_Z 1) a))
          eps_eff).

(** ** [find_s21_peaks] *)
Definition find_s21_peaks (mag_db : list T) (min_peak_db : T)
  : io T (list nat) :=
  let threshold := fadd (np_median mag_db) min_peak_db in
  emit (PrintThreshold threshold) ;;;
  ret (find_peaks mag_db threshold).

(** ** [calculate_loss_tangent] *)

(** [while left > 0 and mag_db[left] > half_mag: left -= 1] *)
Fixpoint search_left (mag_db : list T) (half_mag : T) (left : nat) : nat :=
  match left with
  | 0 => 0
  | S left' =>
      if flt half_mag (nth left mag_db fnan)
      then search_left mag_db half_mag left'
      else left
  end.

(** [while right < len(mag_db) - 1 and mag_db[right] > half_mag: right += 1],
    by recursion on the variant [k = len(mag_db) - 1 - right]. *)
Fixpoint search_right_from (mag_db : list T) (half_mag : T) (right k : nat)
  : nat :=
  match k with
  | 0 => right
  | S k' =>
      if flt half_mag (nth right mag_db fnan)
      then search_right_from mag_db half_mag (S right) k'
      else right
  end.

Definition search_right (mag_db : list T) (half_mag : T) (right : nat) : nat :=
  search_right_from mag_db half_mag right (length mag_db - 1 - right).

(** The body of the [for peak_idx in peaks] loop. *)
Definition loss_tangent_at (freq mag_db : list T) (peak_idx : nat)
  : result T :=
  peak_mag <~ getitem mag_db peak_idx ;;
  let half_mag := fsub peak_mag (of_Z 3) in
  let left := search_left mag_db half_mag peak_idx in
  let right := search_right mag_db half_mag peak_idx in
  f_left <~ getitem freq left ;;
  f_right <~ getitem freq right ;;
  f0 <~ getitem freq peak_idx ;;
  let bw := fsub f_right f_left in
  let Q := if flt (of_Z 0) bw then fdiv f0 bw else fnan in
  let loss_tangent := if flt (of_Z 0) Q then fdiv (of_Z 1) Q else fnan in
  Ok loss_tangent.

Definition calculate_loss_tangent (freq mag_db : list T) (peaks : list nat)
  : result (list T) :=
  rmap (loss_tangent_at freq mag_db) peaks.

(** ** [estimate_effective_length] *)
Definition estimate_effective_length (eps_known freq_Hz : T) (mode_n : Z) : T :=
  fdiv (fmul C0 (of_Z mode_n)) (fmul freq_Hz (fsqrt eps_known)).

(** ** [main] *)

(** The CONFIG block. *)
Record config : Type := Config {
  RING_LENGTH_MM : T;
  SUBSTRATE_H_MM : T;
  TRACE_W_MM : T;
  MIN_PEAK_DB : T;
  SAVE_CSV : option string;
  SHOW_PLOT : bool;
  CALIBRATE_L : bool;
  CALIBRATION_FREQ_HZ : T;
  CALIBRATION_EPSILON : T;
  CALIBRATION_MODE_N : Z
}.

(** One entry of [(C0 * n_modes / (freqs * L)) ** 2]. *)
Definition ring_eps_eff (L : T) (n : Z) (f : T) : T :=
  let q := fdiv (fmul C0 (of_Z n)) (fmul f L) in
  fmul q q.

Fixpoint map2 {A B C} (f : A -> B -> C) (l : list A) (l' : list B) : list C :=
  match l, l' with
  | a :: t, b :: t' => f a b :: map2 f t t'
  | _, _ => []
  end.

(** The DataFrame built from the five columns. *)
Fixpoint data_frame (ns : list Z) (fs es rs ls : list T) : list (row T) :=
  match ns, fs, es, rs, ls with
  | n :: ns', f :: fs', e :: es', r :: rs', l :: ls' =>
      Row n f e r l :: data_frame ns' fs' es' rs' ls'
  | _, _, _, _, _ => []
  end.

Definition csv_requested (p : option string) : option string :=
  match p with
  | Some EmptyString | None => None
  | Some s => Some s
  end.

(** [main], from the point where the Touchstone file has been read:
    [freq] is [ntwk.f] and [mag_db] the S21 magnitude in dB.  The value
    returned is the DataFrame [df] the script prints and exports. *)
Definition main (cfg : config) (freq mag_db : list T) : io T (list (row T)) :=
  peaks <- find_s21_peaks mag_db (MIN_PEAK_DB cfg) ;;
  freqs <- lift (rmap (getitem freq) peaks) ;;
  let n_modes := map Z.of_nat (seq 1 (length freqs)) in
  (if length freqs =? 0
   then raise (RuntimeError "No peaks detected; adjust MIN_PEAK_DB or check data."%string)
   else ret tt) ;;;
  L <- (if CALIBRATE_L cfg then
          let L := estimate_effective_length (CALIBRATION_EPSILON cfg)
                     (CALIBRATION_FREQ_HZ cfg) (CALIBRATION_MODE_N cfg) in
          emit (PrintCalibration L) ;;; ret L
        else ret (fdiv (RING_LENGTH_MM cfg) (of_Z 1000))) ;;
  let h := fdiv (SUBSTRATE_H_MM cfg) (of_Z 1000) in
  let w := fdiv (TRACE_W_MM cfg) (of_Z 1000) in
  let eps_eff := map2 (ring_eps_eff L) n_modes freqs in
  eps_r <- lift (microstrip_eps_r eps_eff h w) ;;
  emit (PrintModes n_modes) ;;;
  loss_tangents <- lift (calculate_loss_tangent freq mag_db peaks) ;;
  let df := data_frame n_modes freqs eps_eff eps_r loss_tangents in
  emit (PrintTable df) ;;;
  emit (PrintAverages (df_eps_eff df) (df_eps_r df) (df_loss_tan df)) ;;;
  match csv_requested (SAVE_CSV cfg) with
  | Some path => emit (SaveCsv path df)
  | None => ret tt
  end ;;;
  (if SHOW_PLOT cfg then
     emit (SaveFigure "ring_resonator_S21.png"%string) ;;;
     emit (SaveFigure "ring_resonator_permittivity.png"%string)
   else ret tt) ;;;
  ret df.

End Program.

Arguments config T : clear implicits.
Arguments Config {T}.
Arguments RING_LENGTH_MM {T} c.
Arguments SUBSTRATE_H_MM {T} c.
Arguments TRACE_W_MM {T} c.
Arguments MIN_PEAK_DB {T} c.
Arguments SAVE_CSV {T} c.
Arguments SHOW_PLOT {T} c.
Arguments CALIBRATE_L {T} c.
Arguments CALIBRATION_FREQ_HZ {T} c.
Arguments CALIBRATION_EPSILON {T} c.
Arguments CALIBRATION_MODE_N {T} c.

(** * Order law shared by the two instances

    The two facts about comparisons that the structural properties need:
    a value strictly below another is not at or above it, and nothing is
    below NaN. *)

Class Float64Order (T : Type) `{Float64 T} : Prop := {
  flt_not_fle : forall x y : T, flt x y = true -> fle y x = false;
  flt_nan : forall x : T, flt x fnan = false
}.

(** * Vocabulary of the statements

    Names for the quantities the functions compute inline, and the
    predicates the properties are stated with. *)

Section Vocabulary.

Context {T : Type} `{Float64 T}.

(** ** The loss estimator *)

(** [l] is where a scan that starts at [p] and walks left, while the
    index is positive and the sample is above [half], comes to rest. *)
Definition left_stop (mag : list T) (half : T) (p l : nat) : Prop :=
  l <= p /\
  (forall j, l < j <= p -> flt half (nth j mag fnan) = true) /\
  (l = 0 \/ flt half (nth l mag fnan) = false).

(** [r] is where the scan to the right, bounded by the last index, rests. *)
Definition right_stop (mag : list T) (half : T) (p r : nat) : Prop :=
  p <= r /\
  (forall j, p <= j < r -> flt half (nth j mag fnan) = true) /\
  (r = length mag - 1 \/ flt half (nth r mag fnan) = false).

Definition half_mag_at (mag_db : list T) (p : nat) : T :=
  fsub (nth p mag_db fnan) (of_Z 3).

Definition left_at (mag_db : list T) (p : nat) : nat :=
  search_left mag_db (half_mag_at mag_db p) p.

Definition right_at (mag_db : list T) (p : nat) : nat :=
  search_right mag_db (half_mag_at mag_db p) p.

(** The -3 dB bandwidth [f_right - f_left] of the peak at [p]. *)
Definition bandwidth_at (freq mag_db : list T) (p : nat) : T :=
  fsub (nth (right_at mag_db p) freq fnan) (nth (left_at mag_db p) freq fnan).

(** [Q = f0 / bw if bw > 0 else nan] *)
Definition Q_of (f0 bw : T) : T :=
  if flt (of_Z 0) bw then fdiv f0 bw else fnan.

(** [1 / Q if Q > 0 else nan] *)
Definition loss_of_Q (Q : T) : T :=
  if flt (of_Z 0) Q then fdiv (of_Z 1) Q else fnan.

(** ** The peak detector *)

(** A maximum in scipy's sense: the samples [l..r] are equal, and the
    samples just before [l] and just after [r] are strictly smaller. *)
Definition flat_peak (x : list T) (l r : nat) : Prop :=
  1 <= l /\ l <= r /\ r + 1 < length x /\
  flt (nth (l - 1) x fnan) (nth l x fnan) = true /\
  (forall j, l < j <= r -> feq (nth j x fnan) (nth l x fnan) = true) /\
  flt (nth (r + 1) x fnan) (nth l x fnan) = true.

(** The textbook notion: strictly above both neighbours. *)
Definition strict_local_maximum (x : list T) (p : nat) : Prop :=
  1 <= p /\ p + 1 < length x /\
  flt (nth (p - 1) x fnan) (nth p x fnan) = true /\
  flt (nth (p + 1) x fnan) (nth p x fnan) = true.

(** ** The driver *)

Definition threshold_of (cfg : config T) (mag_db : list T) : T :=
  fadd (np_median mag_db) (MIN_PEAK_DB cfg).

Definition peaks_of (cfg : config T) (mag_db : list T) : list nat :=
  find_peaks mag_db (threshold_of cfg mag_db).

(** The ring length [L] the permittivity formula is applied with. *)
Definition length_of (cfg : config T) : T :=
  if CALIBRATE_L cfg then
    estimate_effective_length (CALIBRATION_EPSILON cfg)
      (CALIBRATION_FREQ_HZ cfg) (CALIBRATION_MODE_N cfg)
  else fdiv (RING_LENGTH_MM cfg) (of_Z 1000).

Definition height_of (cfg : config T) : T :=
  fdiv (SUBSTRATE_H_MM cfg) (of_Z 1000).

Definition width_of (cfg : config T) : T :=
  fdiv (TRACE_W_MM cfg) (of_Z 1000).

(** [a = 1.0 / np.sqrt(1.0 + 12.0 * h / w)], once the division by [w]
    has gone through. *)
Definition dispersion_a (h w : T) : T :=
  fdiv (of_Z 1) (fsqrt (fadd (of_Z 1) (fdiv (fmul (of_Z 12) h) w))).

Definition eps_r_of (a e : T) : T :=
  fdiv (fsub (fadd (fmul (of_Z 2) e) a) (of_Z 1)) (fadd (of_Z 1) a).

(** The row of the table for the peak [p], detected in position [i]
    (counted from 0): it is a function of [i] and [p] alone. *)
Definition row_of (cfg : config T) (freq mag_db : list T) (i p : nat) : row T :=
  let n := Z.of_nat (i + 1) in
  let f := nth p freq fnan in
  let e := ring_eps_eff (length_of cfg) n f in
  Row n f e
      (eps_r_of (dispersion_a (height_of cfg) (width_of cfg)) e)
      (loss_of_Q (Q_of f (bandwidth_at freq mag_db p))).

Fixpoint rows_from (cfg : config T) (freq mag_db : list T) (i : nat)
  (peaks : list nat) : list (row T) :=
  match peaks with
  | [] => []
  | p :: peaks' =>
      row_of cfg freq mag_db i p :: rows_from cfg freq mag_db (S i) peaks'
  end.

Definition table_of (cfg : config T) (freq mag_db : list T) : list (row T) :=
  rows_from cfg freq mag_db 0 (peaks_of cfg mag_db).

(** The Python ints that [float()] converts: those whose nearest binary64
    number is finite.  On any other, [C0 * mode_n] raises
    [OverflowError]. *)
Definition int_converts (n : Z) : Prop :=
  (Z.abs n < 2 ^ 1024 - 2 ^ 970)%Z.

Definition calibration_events (cfg : config T) : list (event T) :=
  if CALIBRATE_L cfg then [PrintCalibration (length_of cfg)] else [].

Definition report_events (cfg : config T) (n : nat) (df : list (row T))
  : list (event T) :=
  [PrintModes (map Z.of_nat (seq 1 n));
   PrintTable df;
   PrintAverages (df_eps_eff df) (df_eps_r df) (df_loss_tan df)]
  ++ match csv_requested (SAVE_CSV cfg) with
     | Some path => [SaveCsv path df]
     | None => []
     end
  ++ (if SHOW_PLOT cfg then
        [SaveFigure "ring_resonator_S21.png"%string;
         SaveFigure "ring_resonator_permittivity.png"%string]
      else []).

End Vocabulary.

(** * The spec's formulas over the reals *)

Module Exact.

Local Open Scope R_scope.

(** The speed of light as a real number. *)
Definition c0 : R := 299792458.

(** The spec's [eps_eff = (c0 * n / (f0 * L))^2]. *)
Definition spec_eps_eff (n : Z) (f0 L : R) : R := (c0 * IZR n / (f0 * L)) ^ 2.

(** The spec's [a = 1 / sqrt(1 + 12 h / w)]. *)
Definition spec_a (h w : R) : R := 1 / sqrt (1 + 12 * h / w).

(** The spec's [eps_r = (2 eps_eff + a - 1) / (1 + a)]. *)
Definition spec_eps_r (e h w : R) : R :=
  (2 * e + spec_a h w - 1) / (1 + spec_a h w).

End Exact.

(** A frequency axis as the data model wants it. *)
Definition strictly_increasing (fr : list R) : Prop :=
  forall i j, (i < j < length fr)%nat -> (nth i fr 0 < nth j fr 0)%R.

(** * A small synthetic measurement in exact arithmetic *)

Module Demo.

Local Open Scope R_scope.

(** Three samples with one resonance in the middle. *)
Definition freq_R : list R := [1; 2; 3].
Definition mag_db : list xreal := [Fin 0; Fin 20; Fin 0].

Definition cfg : config xreal :=
  {| RING_LENGTH_MM := Fin 100;
     SUBSTRATE_H_MM := Fin 2;
     TRACE_W_MM := Fin 3;
     MIN_PEAK_DB := Fin 16;
     SAVE_CSV := None;
     SHOW_PLOT := false;
     CALIBRATE_L := false;
     CALIBRATION_FREQ_HZ := Fin 1;
     CALIBRATION_EPSILON := Fin 4;
     CALIBRATION_MODE_N := 1 |}.

End Demo.

(** * Synthetic measurements in binary64 *)

Module DemoB64.

Local Open Scope float_scope.
Local Set Warnings "-inexact-float".

(** Seven samples, resonances at indices 2 and 5. *)
Definition freq : list float := [1; 2; 3; 4; 5; 6; 7].
Definition mag_db : list float := [0; 0; 20; 0; 0; 30; 0].

(** The same trace with the resonances too weak to pass the threshold. *)
Definition mag_quiet : list float := [0; 0; 2; 0; 0; 3; 0].

(** A frequency axis that is not increasing: the window of the peak at
    index 2 has width zero. *)
Definition freq_folded : list float := [5; 4; 3; 4; 5; 6; 7].

(** A resonance whose top is three equal samples wide. *)
Definition mag_plateau : list float := [0; 0; 0; 5; 5; 5; 0; 0; 0].

(** One resonance on a positive, strictly increasing frequency axis that
    spans the whole binary64 range. *)
Definition freq_wide : list float := [5e-324; 1e-323; 1e308].
Definition mag_single : list float := [0; 20; 0].

Definition cfg : config float :=
  {| RING_LENGTH_MM := 100;
     SUBSTRATE_H_MM := 1.5;
     TRACE_W_MM := 3;
     MIN_PEAK_DB := 16;
     SAVE_CSV := None;
     SHOW_PLOT := false;
     CALIBRATE_L := false;
     CALIBRATION_FREQ_HZ := 1e9;
     CALIBRATION_EPSILON := 4;
     CALIBRATION_MODE_N := 1 |}.

(** Calibration switched on, with a negative known frequency. *)
Definition cfg_bad_calibration : config float :=
  {| RING_LENGTH_MM := 100;
     SUBSTRATE_H_MM := 1.5;
     TRACE_W_MM := 3;
     MIN_PEAK_DB := 16;
     SAVE_CSV := None;
     SHOW_PLOT := false;
     CALIBRATE_L := true;
     CALIBRATION_FREQ_HZ := -1e9;
     CALIBRATION_EPSILON := 4;
     CALIBRATION_MODE_N := 1 |}.

End DemoB64.

(** * Further comparison laws

    Used by the further properties of the peak detector. *)

(** Equal samples compare alike, and [<] is a strict order. *)
Class Float64Eq (T : Type) `{Float64 T} : Prop := {
  feq_flt_left : forall a v b : T, feq a v = true -> flt a b = flt v b;
  feq_flt_right : forall a v b : T, feq a v = true -> flt b a = flt b v;
  flt_irrefl : forall a : T, flt a a = false;
  flt_asym : forall a b : T, flt a b = true -> flt b a = false;
  flt_not_feq : forall a b : T, flt a b = true -> feq a b = false
}.

(** NaN reaches the comparison with the threshold: a threshold computed
    from a NaN median is at or below nothing. *)
Class Float64NaN (T : Type) `{Float64 T} : Prop := {
  fle_nan_sum : forall y x : T, fle (fadd fnan y) x = false
}.

(** * A two-resonance measurement in exact arithmetic *)

Module DemoTwo.

Local Open Scope R_scope.

Definition freq_R : list R := [1; 2; 3; 4; 5].
Definition mag_R : list R := [0; 20; 0; 30; 0].

(** Calibrated on the first resonance: permittivity 4 at frequency 2. *)
Definition cfg : config xreal :=
  {| RING_LENGTH_MM := Fin 100;
     SUBSTRATE_H_MM := Fin 2;
     TRACE_W_MM := Fin 3;
     MIN_PEAK_DB := Fin 16;
     SAVE_CSV := None;
     SHOW_PLOT := false;
     CALIBRATE_L := true;
     CALIBRATION_FREQ_HZ := Fin 2;
     CALIBRATION_EPSILON := Fin 4;
     CALIBRATION_MODE_N := 1 |}.

End DemoTwo.

(** * Edge-case traces in binary64 *)

Module DemoEdge.

Local Open Scope float_scope.

(** A resonance so broad that the trace never drops 3 dB below its top. *)
Definition mag_broad : list float := [10; 10; 11; 10; 10].

(** A trace with a NaN sample. *)
Definition mag_nan : list float := [0; 0; 20; nan; 0; 30; 0].

(** Two samples only. *)
Definition mag_short : list float := [0; 20].

(** The configuration of [DemoB64.cfg] with the CSV export requested. *)
Definition cfg_csv : config float :=
  {| RING_LENGTH_MM := 100;
     SUBSTRATE_H_MM := 1.5;
     TRACE_W_MM := 3;
     MIN_PEAK_DB := 16;
     SAVE_CSV := Some "results.csv"%string;
     SHOW_PLOT := true;
     CALIBRATE_L := false;
     CALIBRATION_FREQ_HZ := 1e9;
     CALIBRATION_EPSILON := 4;
     CALIBRATION_MODE_N := 1 |}.

End DemoEdge.

(** * Tactics for the exact arithmetic *)

(** Case analysis on the comparisons of reals hidden in the [xreal]
    operations, closing the arithmetic side conditions with [lra]. *)
Ltac xr_cases :=
  unfold XR.ltb, XR.leb, XR.eqb in *;
  repeat match goal with
    | |- context [Rlt_dec ?a ?b] => destruct (Rlt_dec a b)
    | |- context [Rle_dec ?a ?b] => destruct (Rle_dec a b)
    | |- context [Req_dec_T ?a ?b] => destruct (Req_dec_T a b)
    | H : context [Rlt_dec ?a ?b] |- _ => destruct (Rlt_dec a b)
    | H : context [Rle_dec ?a ?b] |- _ => destruct (Rle_dec a b)
    | H : context [Req_dec_T ?a ?b] |- _ => destruct (Req_dec_T a b)
    end;
  try discriminate; try reflexivity; try lra.

(** Evaluation of a closed [xreal] computation: unfold, decide each
    comparison of real constants, repeat. *)
Ltac xr_step :=
  match goal with
  | |- context [Rlt_dec ?a ?b] => destruct (Rlt_dec a b); try (exfalso; lra)
  | |- context [Rle_dec ?a ?b] => destruct (Rle_dec a b); try (exfalso; lra)
  | |- context [Req_dec_T ?a ?b] => destruct (Req_dec_T a b); try (exfalso; lra)
  end.

Ltac xr_eval :=
  repeat (progress (simpl; unfold XR.le, XR.ltb, XR.leb, XR.eqb; repeat xr_step));
  try reflexivity.

(** * Half-power window: what the two scans of the loss estimator find *)

Section HalfPower.

Context {T : Type} `{Float64 T}.

Lemma search_left_stop (mag : list T) (half : T) (p : nat) :
  left_stop mag half p (search_left mag half p).
Proof.
  induction p as [|p IH]; simpl.
  - repeat split; auto. intros j Hj. lia.
  - destruct (flt half (nth (S p) mag fnan)) eqn:E.
    + destruct IH as (Hle & Habove & Hrest).
      repeat split; auto.
      intros j Hj. destruct (Nat.eq_dec j (S p)) as [->|Hne]; auto.
      apply Habove. lia.
    + repeat split; auto. intros j Hj. lia.
Qed.

Lemma left_stop_unique (mag : list T) (half : T) (p l l' : nat) :
  left_stop mag half p l -> left_stop mag half p l' -> l = l'.
Proof.
  intros (Hl & Ha & Hr) (Hl' & Ha' & Hr').
  destruct (Nat.lt_trichotomy l l') as [Hlt|[Heq|Hgt]]; auto; exfalso.
  - destruct Hr' as [->|Hr']; [lia|].
    rewrite Ha in Hr' by lia. discriminate.
  - destruct Hr as [->|Hr]; [lia|].
    rewrite Ha' in Hr by lia. discriminate.
Qed.

Lemma search_right_from_stop (mag : list T) (half : T) (k p : nat) :
  p + k = length mag - 1 ->
  right_stop mag half p (search_right_from mag half p k).
Proof.
  revert p. induction k as [|k IH]; intros p Hk; simpl.
  - repeat split; auto; [intros j Hj; lia | left; lia].
  - destruct (flt half (nth p mag fnan)) eqn:E.
    + destruct (IH (S p)) as (Hle & Habove & Hrest); [lia|].
      repeat split; auto; [lia|].
      intros j Hj. destruct (Nat.eq_dec j p) as [->|Hne]; auto.
      apply Habove. lia.
    + repeat split; auto. intros j Hj. lia.
Qed.

Lemma search_right_stop (mag : list T) (half : T) (p : nat) :
  p < length mag ->
  right_stop mag half p (search_right mag half p).
Proof.
  intros Hp. unfold search_right. apply search_right_from_stop. lia.
Qed.

Lemma right_stop_unique (mag : list T) (half : T) (p r r' : nat) :
  p < length mag ->
  right_stop mag half p r -> right_stop mag half p r' ->
  r <= length mag - 1 -> r' <= length mag - 1 -> r = r'.
Proof.
  intros Hp (Hl & Ha & Hr) (Hl' & Ha' & Hr') Hb Hb'.
  destruct (Nat.lt_trichotomy r r') as [Hlt|[Heq|Hgt]]; auto; exfalso.
  - destruct Hr as [->|Hr]; [lia|].
    rewrite Ha' in Hr by lia. discriminate.
  - destruct Hr' as [->|Hr']; [lia|].
    rewrite Ha in Hr' by lia. discriminate.
Qed.

Lemma search_right_from_bound (mag : list T) (half : T) (k p : nat) :
  search_right_from mag half p k <= p + k.
Proof.
  revert p. induction k as [|k IH]; intros p; simpl; [lia|].
  destruct (flt half (nth p mag fnan)); [|lia].
  specialize (IH (S p)). lia.
Qed.

Lemma search_left_le (mag : list T) (half : T) (p : nat) :
  search_left mag half p <= p.
Proof. apply search_left_stop. Qed.

Lemma search_right_ge (mag : list T) (half : T) (p : nat) :
  p <= search_right mag half p.
Proof.
  unfold search_right.
  generalize (length mag - 1 - p) as k. intros k. revert p.
  induction k as [|k IH]; intros p; simpl; [lia|].
  destruct (flt half (nth p mag fnan)); [|lia].
  specialize (IH (S p)). lia.
Qed.

Lemma search_right_lt_length (mag : list T) (half : T) (p : nat) :
  p < length mag -> search_right mag half p < length mag.
Proof.
  intros Hp. unfold search_right.
  pose proof (search_right_from_bound mag half (length mag - 1 - p) p). lia.
Qed.

(** ** The loss estimator on an in-range peak *)

Lemma getitem_nth (a : list T) (i : nat) :
  i < length a -> getitem a i = Ok (nth i a fnan).
Proof.
  intros Hi. unfold getitem.
  destruct (nth_error a i) eqn:E.
  - f_equal. symmetry. apply nth_error_nth. exact E.
  - apply nth_error_None in E. lia.
Qed.

Lemma getitem_out_of_range (a : list T) (i : nat) :
  length a <= i -> getitem a i = Raise IndexError.
Proof.
  intros Hi. unfold getitem.
  apply nth_error_None in Hi. now rewrite Hi.
Qed.

Lemma loss_tangent_at_in_range (freq mag_db : list T) (p : nat) :
  length freq = length mag_db ->
  p < length mag_db ->
  loss_tangent_at freq mag_db p =
    Ok (loss_of_Q (Q_of (nth p freq fnan) (bandwidth_at freq mag_db p))).
Proof.
  intros Hlen Hp. unfold loss_tangent_at.
  rewrite (getitem_nth mag_db) by exact Hp. cbn [rbind].
  fold (half_mag_at mag_db p). fold (left_at mag_db p). fold (right_at mag_db p).
  assert (Hl : left_at mag_db p < length freq).
  { pose proof (search_left_le mag_db (half_mag_at mag_db p) p).
    unfold left_at. lia. }
  assert (Hr : right_at mag_db p < length freq).
  { rewrite Hlen. apply search_right_lt_length. exact Hp. }
  rewrite !getitem_nth by lia. cbn [rbind].
  reflexivity.
Qed.

Lemma loss_tangent_at_out_of_range (freq mag_db : list T) (p : nat) :
  length mag_db <= p ->
  loss_tangent_at freq mag_db p = Raise IndexError.
Proof.
  intros Hp. unfold loss_tangent_at.
  rewrite getitem_out_of_range by exact Hp. reflexivity.
Qed.

Lemma rmap_ok {A B} (f : A -> result B) (g : A -> B) (l : list A) :
  (forall a, In a l -> f a = Ok (g a)) ->
  rmap f l = Ok (map g l).
Proof.
  induction l as [|a l IH]; intros Hf; simpl; [reflexivity|].
  rewrite Hf by (left; reflexivity). cbn [rbind].
  rewrite IH by (intros b Hb; apply Hf; right; exact Hb).
  reflexivity.
Qed.

(** The whole loop returns, with one entry per peak in peak order. *)
Lemma calculate_loss_tangent_in_range (freq mag_db : list T) (peaks : list nat) :
  length freq = length mag_db ->
  Forall (fun p => p < length mag_db) peaks ->
  calculate_loss_tangent freq mag_db peaks =
    Ok (map (fun p => loss_of_Q (Q_of (nth p freq fnan)
                                      (bandwidth_at freq mag_db p))) peaks).
Proof.
  intros Hlen Hin. unfold calculate_loss_tangent.
  apply rmap_ok. intros p Hp.
  apply loss_tangent_at_in_range; auto.
  rewrite Forall_forall in Hin. apply Hin. exact Hp.
Qed.

End HalfPower.

(** * Peak detection: what the local-maxima scan reports *)

Section Peaks.

Context {T : Type} `{Float64 T}.

Lemma flat_peak_single (x : list T) (p : nat) :
  flat_peak x p p <-> strict_local_maximum x p.
Proof.
  unfold flat_peak, strict_local_maximum. split.
  - intros (H1 & _ & H3 & H4 & _ & H6). auto.
  - intros (H1 & H2 & H3 & H4). repeat split; auto. intros j Hj. lia.
Qed.

Lemma skip_equal_spec (x : list T) (v : T) (k i : nat) :
  let a := skip_equal x v i k in
  i <= a <= i + k /\
  (forall j, i <= j < a -> feq (nth j x fnan) v = true) /\
  (a = i + k \/ feq (nth a x fnan) v = false).
Proof.
  revert i. induction k as [|k IH]; intros i; simpl.
  - split; [lia|]. split; [intros j Hj; lia | left; lia].
  - destruct (feq (nth i x fnan) v) eqn:E.
    + destruct (IH (S i)) as (Hb & Heq & Hend).
      split; [lia|]. split.
      * intros j Hj. destruct (Nat.eq_dec j i) as [->|Hne]; auto.
        apply Heq. lia.
      * destruct Hend as [Hend|Hend]; [left; lia | right; exact Hend].
    + split; [lia|]. split; [intros j Hj; lia | right; exact E].
Qed.

(** The outer loop never runs out of iterations: any two budgets that
    cover the remaining distance [i_max - i] give the same peaks. *)
Lemma local_maxima_loop_fuel (x : list T) (i_max fuel fuel' i : nat) :
  i_max - i <= fuel -> i_max - i <= fuel' ->
  local_maxima_loop x i_max fuel i = local_maxima_loop x i_max fuel' i.
Proof.
  revert fuel' i. induction fuel as [|fuel IH]; intros fuel' i Hf Hf'.
  - destruct fuel' as [|fuel']; simpl; [reflexivity|].
    destruct (Nat.ltb_spec i i_max); [lia | reflexivity].
  - destruct fuel' as [|fuel']; simpl.
    + destruct (Nat.ltb_spec i i_max); [lia | reflexivity].
    + destruct (Nat.ltb_spec i i_max) as [Hlt|Hge]; [|reflexivity].
      pose proof (skip_equal_spec x (nth i x fnan) (i_max - (i + 1)) (i + 1))
        as (Hb & _ & _). cbv zeta in Hb.
      destruct (flt (nth (i - 1) x fnan) (nth i x fnan)).
      * destruct (flt _ (nth i x fnan)).
        -- f_equal. apply IH; lia.
        -- apply IH; lia.
      * apply IH; lia.
Qed.

Lemma local_maxima_loop_sound (x : list T) (fuel i p : nat) :
  1 <= i ->
  In p (local_maxima_loop x (length x - 1) fuel i) ->
  exists l r, flat_peak x l r /\ p = (l + r) / 2 /\ i <= l.
Proof.
  revert i. induction fuel as [|fuel IH]; intros i Hi Hin; simpl in Hin.
  - contradiction.
  - destruct (Nat.ltb_spec i (length x - 1)) as [Hlt|Hge]; [|contradiction].
    pose proof (skip_equal_spec x (nth i x fnan) (length x - 1 - (i + 1)) (i + 1))
      as (Hb & Heq & _). cbv zeta in Hb, Heq.
    set (i_ahead := skip_equal x (nth i x fnan) (i + 1) (length x - 1 - (i + 1)))
      in *.
    destruct (flt (nth (i - 1) x fnan) (nth i x fnan)) eqn:Eup.
    + destruct (flt (nth i_ahead x fnan) (nth i x fnan)) eqn:Edown.
      * destruct Hin as [<-|Hin].
        -- exists i, (i_ahead - 1). split; [|split; [reflexivity | lia]].
           unfold flat_peak.
           split; [lia|]. split; [lia|]. split; [lia|].
           split; [exact Eup|]. split.
           ++ intros j Hj. apply Heq. lia.
           ++ replace (i_ahead - 1 + 1) with i_ahead by lia. exact Edown.
        -- destruct (IH (i_ahead + 1)) as (l & r & Hp & Hmid & Hl); auto; [lia|].
           exists l, r. split; [exact Hp|]. split; [exact Hmid | lia].
      * destruct (IH (i + 1)) as (l & r & Hp & Hmid & Hl); auto; [lia|].
        exists l, r. split; [exact Hp|]. split; [exact Hmid | lia].
    + destruct (IH (i + 1)) as (l & r & Hp & Hmid & Hl); auto; [lia|].
      exists l, r. split; [exact Hp|]. split; [exact Hmid | lia].
Qed.

Lemma find_peaks_sound (x : list T) (height : T) (p : nat) :
  In p (find_peaks x height) ->
  fle height (nth p x fnan) = true /\
  exists l r, flat_peak x l r /\ p = (l + r) / 2.
Proof.
  unfold find_peaks, local_maxima_1d. intros Hin.
  apply filter_In in Hin. destruct Hin as (Hin & Hh).
  split; [exact Hh|].
  destruct (local_maxima_loop_sound x (length x) 1 p) as (l & r & Hp & Hmid & _);
    auto.
  exists l, r. auto.
Qed.

Lemma flat_peak_mid_range (x : list T) (l r : nat) :
  flat_peak x l r -> 1 <= (l + r) / 2 /\ (l + r) / 2 + 1 < length x.
Proof.
  intros (H1 & H2 & H3 & _).
  pose proof (Nat.div_mod_eq (l + r) 2) as Hdm.
  pose proof (Nat.mod_upper_bound (l + r) 2) as Hmod.
  lia.
Qed.

(** Every reported peak is an interior index of the trace. *)
Lemma find_peaks_in_range (x : list T) (height : T) :
  Forall (fun p => 1 <= p /\ p + 1 < length x) (find_peaks x height).
Proof.
  apply Forall_forall. intros p Hp.
  destruct (find_peaks_sound x height p Hp) as (_ & l & r & Hfp & ->).
  apply flat_peak_mid_range. exact Hfp.
Qed.

Lemma find_peaks_below_threshold `{!Float64Order T} (x : list T) (height : T) :
  (forall v, In v x -> flt v height = true) ->
  find_peaks x height = [].
Proof.
  intros Hbelow.
  destruct (find_peaks x height) as [|p ps] eqn:E; [reflexivity|exfalso].
  assert (Hin : In p (find_peaks x height)) by (rewrite E; left; reflexivity).
  pose proof (find_peaks_in_range x height) as Hr.
  rewrite Forall_forall in Hr. specialize (Hr p Hin).
  destruct (find_peaks_sound x height p Hin) as (Hh & _).
  assert (Hv : In (nth p x fnan) x) by (apply nth_In; lia).
  apply Hbelow in Hv. apply flt_not_fle in Hv. congruence.
Qed.

End Peaks.

(** * The order law holds for both arithmetics *)

Module B64Order.

Lemma SFcompare_Lt_swap (x y : spec_float) :
  SFcompare x y = Some Lt -> SFcompare y x = Some Gt.
Proof.
  destruct x as [s1|s1| |s1 m1 e1], y as [s2|s2| |s2 m2 e2]; simpl;
    try discriminate;
    try (destruct s1; discriminate || reflexivity);
    try (destruct s2; discriminate || reflexivity);
    try (destruct s1, s2; discriminate || reflexivity).
  destruct s1, s2; try discriminate; try reflexivity;
    rewrite (Z.compare_antisym e1 e2);
    change (PosDef.Pos.compare_cont Eq m2 m1) with (Pos.compare m2 m1);
    change (PosDef.Pos.compare_cont Eq m1 m2) with (Pos.compare m1 m2);
    rewrite (Pos.compare_antisym m1 m2);
    destruct (e1 ?= e2)%Z; simpl; try discriminate; try reflexivity;
    destruct (m1 ?= m2)%positive; simpl; intros E;
    discriminate || reflexivity.
Qed.

Lemma ltb_not_leb (x y : float) :
  PrimFloat.ltb x y = true -> PrimFloat.leb y x = false.
Proof.
  rewrite ltb_spec, leb_spec. unfold SFltb, SFleb.
  destruct (SFcompare (Prim2SF x) (Prim2SF y)) as [[| |]|] eqn:E;
    try discriminate.
  intros _. rewrite (SFcompare_Lt_swap _ _ E). reflexivity.
Qed.

Lemma ltb_nan (x : float) : PrimFloat.ltb x PrimFloat.nan = false.
Proof.
  rewrite ltb_spec. unfold SFltb.
  change (Prim2SF PrimFloat.nan) with S754_nan.
  destruct (Prim2SF x); reflexivity.
Qed.

End B64Order.

#[export] Instance binary64_order : Float64Order float.
Proof.
  constructor; [exact B64Order.ltb_not_leb | exact B64Order.ltb_nan].
Qed.

Module XRFacts.

Local Open Scope R_scope.

Lemma ltb_true (a b : R) : XR.ltb a b = true <-> a < b.
Proof. split; intros Hab; xr_cases. Qed.

Lemma ltb_false (a b : R) : XR.ltb a b = false <-> b <= a.
Proof. split; intros Hab; xr_cases. Qed.

Lemma eqb_true (a b : R) : XR.eqb a b = true <-> a = b.
Proof. split; intros Hab; xr_cases. Qed.

Lemma eqb_false (a b : R) : XR.eqb a b = false <-> a <> b.
Proof. split; intros Hab; xr_cases. Qed.

Lemma lt_not_le (x y : xreal) : XR.lt x y = true -> XR.le y x = false.
Proof.
  unfold XR.le.
  destruct x as [a| | |], y as [b| | |]; simpl; intros Hxy;
    try discriminate; try reflexivity.
  xr_cases.
Qed.

Lemma lt_Fin (a b : R) : XR.lt (Fin a) (Fin b) = true <-> a < b.
Proof. simpl. apply ltb_true. Qed.

End XRFacts.

#[export] Instance exact_order : Float64Order xreal.
Proof.
  constructor; [exact XRFacts.lt_not_le | intros [r| | |]; reflexivity].
Qed.

(** * The driver: what a run of [main] writes and returns *)

Section Driver.

Context {T : Type} `{Float64 T}.

Lemma nth_error_rows_from (cfg : config T) (freq mag_db : list T)
      (peaks : list nat) (k i p : nat) :
  nth_error peaks i = Some p ->
  nth_error (rows_from cfg freq mag_db k peaks) i
    = Some (row_of cfg freq mag_db (k + i) p).
Proof.
  revert k i. induction peaks as [|q peaks IH]; intros k i Hi.
  - destruct i; discriminate.
  - destruct i as [|i]; simpl in *.
    + injection Hi as ->. now rewrite Nat.add_0_r.
    + rewrite (IH (S k) i Hi). do 2 f_equal. lia.
Qed.

Lemma length_rows_from (cfg : config T) (freq mag_db : list T)
      (peaks : list nat) (k : nat) :
  length (rows_from cfg freq mag_db k peaks) = length peaks.
Proof.
  revert k. induction peaks as [|q peaks IH]; intros k; simpl; auto.
Qed.

Lemma data_frame_rows (cfg : config T) (freq mag_db : list T)
      (peaks : list nat) (k : nat) :
  let freqs := map (fun p => nth p freq fnan) peaks in
  let n_modes := map Z.of_nat (seq (S k) (length peaks)) in
  let es := map2 (ring_eps_eff (length_of cfg)) n_modes freqs in
  data_frame n_modes freqs es
    (map (eps_r_of (dispersion_a (height_of cfg) (width_of cfg))) es)
    (map (fun p => loss_of_Q (Q_of (nth p freq fnan)
                                   (bandwidth_at freq mag_db p))) peaks)
  = rows_from cfg freq mag_db k peaks.
Proof.
  revert k. induction peaks as [|q peaks IH]; intros k; simpl; [reflexivity|].
  unfold row_of at 1. replace (k + 1) with (S k) by lia.
  f_equal. apply IH.
Qed.

Lemma rmap_getitem (freq : list T) (peaks : list nat) :
  Forall (fun p => p < length freq) peaks ->
  rmap (getitem freq) peaks = Ok (map (fun p => nth p freq fnan) peaks).
Proof.
  intros Hin. apply rmap_ok. intros p Hp.
  apply getitem_nth. rewrite Forall_forall in Hin. auto.
Qed.

Lemma peaks_lt_length (cfg : config T) (mag_db : list T) :
  Forall (fun p => p < length mag_db) (peaks_of cfg mag_db).
Proof.
  eapply Forall_impl; [|apply find_peaks_in_range].
  simpl. intros p Hp. lia.
Qed.

(** No peak: the run stops right after the threshold line. *)
Lemma main_no_peaks (cfg : config T) (freq mag_db : list T) :
  peaks_of cfg mag_db = [] ->
  main cfg freq mag_db
  = ([PrintThreshold (threshold_of cfg mag_db)],
     Raise (RuntimeError
              "No peaks detected; adjust MIN_PEAK_DB or check data."%string)).
Proof.
  unfold peaks_of, threshold_of. intros Hnone.
  unfold main, find_s21_peaks. rewrite Hnone. reflexivity.
Qed.

(** Peaks found, zero width: the division [12.0 * h / w] raises. *)
Lemma main_zero_width (cfg : config T) (freq mag_db : list T) :
  length freq = length mag_db ->
  peaks_of cfg mag_db <> [] ->
  feq (width_of cfg) (of_Z 0) = true ->
  main cfg freq mag_db
  = (PrintThreshold (threshold_of cfg mag_db) :: calibration_events cfg,
     Raise ZeroDivisionError).
Proof.
  intros Hlen Hsome Hw.
  pose proof (peaks_lt_length cfg mag_db) as Hin.
  unfold main, find_s21_peaks.
  fold (threshold_of cfg mag_db). fold (peaks_of cfg mag_db).
  cbn [bind emit ret app].
  rewrite rmap_getitem by (rewrite Hlen; exact Hin).
  cbn [bind lift app]. rewrite length_map.
  destruct (peaks_of cfg mag_db) as [|p ps] eqn:Ep; [contradiction|].
  cbn [length Nat.eqb bind ret app].
  unfold calibration_events, length_of, microstrip_eps_r, py_truediv.
  fold (height_of cfg). fold (width_of cfg). rewrite Hw.
  destruct (CALIBRATE_L cfg); reflexivity.
Qed.

(** Peaks found, non-zero width: the run completes and returns the table. *)
Lemma main_success (cfg : config T) (freq mag_db : list T) :
  length freq = length mag_db ->
  peaks_of cfg mag_db <> [] ->
  feq (width_of cfg) (of_Z 0) = false ->
  main cfg freq mag_db
  = (PrintThreshold (threshold_of cfg mag_db) :: calibration_events cfg
       ++ report_events cfg (length (peaks_of cfg mag_db))
            (table_of cfg freq mag_db),
     Ok (table_of cfg freq mag_db)).
Proof.
  intros Hlen Hsome Hw.
  pose proof (peaks_lt_length cfg mag_db) as Hin.
  unfold main, find_s21_peaks.
  fold (threshold_of cfg mag_db). fold (peaks_of cfg mag_db).
  cbn [bind emit ret app].
  rewrite rmap_getitem by (rewrite Hlen; exact Hin).
  rewrite calculate_loss_tangent_in_range by assumption.
  cbn [bind lift app]. rewrite length_map.
  unfold microstrip_eps_r, py_truediv.
  fold (height_of cfg). fold (width_of cfg). rewrite Hw. cbn [rbind].
  fold (dispersion_a (height_of cfg) (width_of cfg)).
  fold (eps_r_of (dispersion_a (height_of cfg) (width_of cfg))).
  unfold table_of, calibration_events, report_events.
  pose proof (data_frame_rows cfg freq mag_db (peaks_of cfg mag_db) 0) as Hdf.
  cbv zeta in Hdf.
  assert (Hn : (length (peaks_of cfg mag_db) =? 0) = false).
  { apply Nat.eqb_neq. destruct (peaks_of cfg mag_db); [contradiction|].
    discriminate. }
  rewrite Hn. clear Hn. cbn [bind ret app].
  unfold length_of in *.
  destruct (CALIBRATE_L cfg); cbn [bind emit ret lift app];
    rewrite Hdf;
    destruct (csv_requested (SAVE_CSV cfg)), (SHOW_PLOT cfg);
    reflexivity.
Qed.

End Driver.

(** * Exact arithmetic: the formulas on finite values *)

Module ExactFacts.

Import Exact.

Local Open Scope R_scope.

Lemma C0_exact : @C0 xreal _ = Fin c0.
Proof. reflexivity. Qed.

Lemma div_Fin (a b : R) : b <> 0 -> XR.div (Fin a) (Fin b) = Fin (a / b).
Proof. intros Hb. simpl. xr_cases. Qed.

Lemma div_Fin_zero (a : R) : 0 < a -> XR.div (Fin a) (Fin 0) = PInf.
Proof. intros Ha. simpl. xr_cases. Qed.

Lemma sqrt_Fin (a : R) : 0 <= a -> XR.sqrt (Fin a) = Fin (sqrt a).
Proof. intros Ha. simpl. xr_cases. Qed.

Lemma sqrt_Fin_neg (a : R) : a < 0 -> XR.sqrt (Fin a) = NaN.
Proof. intros Ha. simpl. xr_cases. Qed.

Lemma feq_Fin_zero (w : R) : feq (Fin w) (of_Z 0) = true <-> w = 0.
Proof. simpl. apply XRFacts.eqb_true. Qed.

Lemma feq_Fin_nonzero (w : R) : feq (Fin w) (of_Z 0) = false <-> w <> 0.
Proof. simpl. apply XRFacts.eqb_false. Qed.

(** ** The ring resonance condition *)

Lemma ring_eps_eff_exact (n : Z) (f0 L : R) :
  f0 <> 0 -> L <> 0 ->
  ring_eps_eff (Fin L) n (Fin f0) = Fin (spec_eps_eff n f0 L).
Proof.
  intros Hf HL. unfold ring_eps_eff, spec_eps_eff.
  rewrite C0_exact. cbn [fmul fdiv of_Z exact XR.mul].
  rewrite div_Fin by (apply Rmult_integral_contrapositive_currified; assumption).
  cbn [XR.mul]. f_equal. ring.
Qed.

(** ** The inverted microstrip relation *)

Lemma ratio_pos (h w : R) : 0 < h -> 0 < w -> 0 < 1 + 12 * h / w.
Proof.
  intros Hh Hw.
  assert (0 < h / w) by (apply Rdiv_lt_0_compat; assumption).
  lra.
Qed.

Lemma spec_a_pos (h w : R) : 0 < h -> 0 < w -> 0 < spec_a h w.
Proof.
  intros Hh Hw. unfold spec_a.
  apply Rdiv_lt_0_compat; [lra|].
  apply sqrt_lt_R0. apply ratio_pos; assumption.
Qed.

Lemma dispersion_a_exact (h w : R) :
  0 < h -> 0 < w ->
  dispersion_a (Fin h) (Fin w) = Fin (spec_a h w).
Proof.
  intros Hh Hw. unfold dispersion_a, spec_a.
  cbn [fmul fdiv fadd fsqrt of_Z exact XR.mul].
  rewrite div_Fin by lra. cbn [XR.add].
  pose proof (ratio_pos h w Hh Hw) as Hr.
  rewrite sqrt_Fin by lra.
  rewrite div_Fin; [reflexivity|].
  apply Rgt_not_eq. apply sqrt_lt_R0. exact Hr.
Qed.

Lemma eps_r_of_exact (a e : R) :
  0 < a ->
  eps_r_of (Fin a) (Fin e) = Fin ((2 * e + a - 1) / (1 + a)).
Proof.
  intros Ha. unfold eps_r_of.
  cbn [fmul fdiv fadd fsub of_Z exact XR.mul XR.add XR.sub XR.neg].
  rewrite div_Fin by lra. reflexivity.
Qed.

Lemma microstrip_eps_r_exact (es : list R) (h w : R) :
  0 < h -> 0 < w ->
  microstrip_eps_r (map Fin es) (Fin h) (Fin w)
  = Ok (map (fun e => Fin (spec_eps_r e h w)) es).
Proof.
  intros Hh Hw. unfold microstrip_eps_r, py_truediv.
  destruct (feq (Fin w) (of_Z 0)) eqn:E.
  - apply feq_Fin_zero in E. lra.
  - cbn [rbind]. f_equal.
    fold (dispersion_a (Fin h) (Fin w)).
    rewrite dispersion_a_exact by assumption.
    rewrite map_map. apply map_ext. intros e.
    fold (eps_r_of (Fin (spec_a h w)) (Fin e)).
    apply eps_r_of_exact. apply spec_a_pos; assumption.
Qed.

End ExactFacts.

(** * The synthetic measurement in exact arithmetic *)

Module DemoFacts.

Import Demo.

Local Open Scope R_scope.

Lemma peaks_of_demo : peaks_of cfg mag_db = [1%nat].
Proof.
  unfold peaks_of, threshold_of, find_peaks, local_maxima_1d, np_median.
  xr_eval.
Qed.

Lemma length_of_demo : length_of cfg = Fin (100 / 1000).
Proof. unfold length_of. simpl. xr_cases. Qed.

Lemma height_of_demo : height_of cfg = Fin (2 / 1000).
Proof. unfold height_of. simpl. xr_cases. Qed.

Lemma width_of_demo : width_of cfg = Fin (3 / 1000).
Proof. unfold width_of. simpl. xr_cases. Qed.

Lemma freq_positive : Forall (fun f => 0 < f) freq_R.
Proof. unfold freq_R. repeat constructor; lra. Qed.

(** The window of the peak is the whole trace. *)
Lemma left_at_demo : left_at mag_db 1 = 0%nat.
Proof. unfold left_at, half_mag_at, mag_db. xr_eval. Qed.

Lemma right_at_demo : right_at mag_db 1 = 2%nat.
Proof. unfold right_at, half_mag_at, search_right, mag_db. xr_eval. Qed.

End DemoFacts.

(** * The permittivity calculator (exact arithmetic) *)

Section PermittivityClaims.

Local Set Warnings "-inexact-float".

Local Open Scope R_scope.

Lemma nth_map_Fin (fr : list R) (p : nat) :
  (p < length fr)%nat -> nth p (map Fin fr) fnan = Fin (nth p fr 0).
Proof.
  intros Hp. rewrite (nth_indep _ fnan (Fin 0)) by (rewrite length_map; exact Hp).
  apply map_nth.
Qed.

Lemma nth_positive (fr : list R) (p : nat) :
  Forall (fun f => 0 < f) fr -> (p < length fr)%nat -> 0 < nth p fr 0.
Proof.
  intros Hpos Hp. rewrite Forall_nth in Hpos. apply Hpos. exact Hp.
Qed.

Lemma map2_ring_eps_eff_exact (L : R) (ns : list Z) (fs : list R) :
  0 < L -> Forall (fun f => 0 < f) fs ->
  map2 (ring_eps_eff (Fin L)) ns (map Fin fs)
  = map2 (fun n f => Fin ((Exact.c0 * IZR n / (f * L)) ^ 2)) ns fs.
Proof.
  intros HL Hpos. revert ns.
  induction Hpos as [|f fs Hf Hfs IH]; intros [|n ns]; cbn [map2 map];
    try reflexivity.
  rewrite ExactFacts.ring_eps_eff_exact by lra. f_equal. apply IH.
Qed.

(** C1. With ring length [L > 0] and geometry [h, w > 0]:
    - on arrays of mode numbers and positive frequencies the ring
      resonance line computes [eps_eff = (c0 n / (f0 L))^2], with
      [c0 = 299792458], entry by entry;
    - [microstrip_eps_r] maps every entry [e] of its array to
      [(2 e + a - 1) / (1 + a)] with [a = 1 / sqrt (1 + 12 h / w)];
    - a run of [main] that detects at least one peak on a trace with
      positive frequencies returns a table with one row per peak; the row
      of the [i]-th peak (counted from 0) has mode number [n = i + 1],
      resonant frequency [f0 = freq[peak]] and these two values.
    Each row depends on its own peak only. *)
Theorem permittivity_calculator_formulas
  (cfg : config xreal) (fr : list R) (mag_db : list xreal) (L h w : R) :
  length fr = length mag_db ->
  peaks_of cfg mag_db <> [] ->
  Forall (fun f => 0 < f) fr ->
  length_of cfg = Fin L -> 0 < L ->
  height_of cfg = Fin h -> 0 < h ->
  width_of cfg = Fin w -> 0 < w ->
  (forall (ns : list Z) (fs : list R),
     Forall (fun f => 0 < f) fs ->
     map2 (ring_eps_eff (Fin L)) ns (map Fin fs)
     = map2 (fun n f => Fin ((Exact.c0 * IZR n / (f * L)) ^ 2)) ns fs) /\
  (forall es : list R,
     microstrip_eps_r (map Fin es) (Fin h) (Fin w)
     = Ok (map (fun e => Fin ((2 * e + 1 / sqrt (1 + 12 * h / w) - 1)
                              / (1 + 1 / sqrt (1 + 12 * h / w)))) es)) /\
  exists out df,
    main cfg (map Fin fr) mag_db = (out, Ok df) /\
    length df = length (peaks_of cfg mag_db) /\
    forall i p, nth_error (peaks_of cfg mag_db) i = Some p ->
      exists r, nth_error df i = Some r /\
        mode_n r = Z.of_nat (i + 1) /\
        freq_Hz r = Fin (nth p fr 0) /\
        eps_eff r = Fin ((Exact.c0 * IZR (mode_n r) / (nth p fr 0 * L)) ^ 2) /\
        eps_r r =
          Fin ((2 * ((Exact.c0 * IZR (mode_n r) / (nth p fr 0 * L)) ^ 2)
                + 1 / sqrt (1 + 12 * h / w) - 1)
               / (1 + 1 / sqrt (1 + 12 * h / w))).
Proof.
  intros Hlen Hsome Hpos HL HLpos Hh Hhpos Hw Hwpos.
  split; [intros ns fs Hfs; apply map2_ring_eps_eff_exact; assumption|].
  split; [intros es; apply ExactFacts.microstrip_eps_r_exact; assumption|].
  assert (Hlen' : length (map Fin fr) = length mag_db)
    by (rewrite length_map; exact Hlen).
  assert (Hw0 : feq (width_of cfg) (of_Z 0) = false)
    by (rewrite Hw; apply ExactFacts.feq_Fin_nonzero; lra).
  eexists. exists (table_of cfg (map Fin fr) mag_db).
  split; [apply main_success; assumption|].
  split; [apply length_rows_from|].
  intros i p Hi.
  exists (row_of cfg (map Fin fr) mag_db i p).
  split; [apply (nth_error_rows_from cfg (map Fin fr) mag_db _ 0 i p Hi)|].
  assert (Hp : (p < length fr)%nat).
  { pose proof (peaks_lt_length cfg mag_db) as Hin.
    rewrite Forall_forall in Hin. rewrite Hlen.
    apply Hin. eapply nth_error_In. exact Hi. }
  pose proof (nth_positive fr p Hpos Hp) as Hf.
  unfold row_of. cbn [mode_n freq_Hz eps_eff eps_r].
  rewrite HL, Hh, Hw, (nth_map_Fin fr p Hp).
  rewrite ExactFacts.ring_eps_eff_exact by lra.
  rewrite ExactFacts.dispersion_a_exact by assumption.
  rewrite ExactFacts.eps_r_of_exact by (apply ExactFacts.spec_a_pos; assumption).
  repeat split; reflexivity.
Qed.

(** The hypotheses of C1 hold on the three-sample trace. *)
Lemma permittivity_calculator_formulas_witness :
  (forall (ns : list Z) (fs : list R),
     Forall (fun f => 0 < f) fs ->
     map2 (ring_eps_eff (Fin (100 / 1000))) ns (map Fin fs)
     = map2 (fun n f => Fin ((Exact.c0 * IZR n / (f * (100 / 1000))) ^ 2)) ns fs) /\
  (forall es : list R,
     microstrip_eps_r (map Fin es) (Fin (2 / 1000)) (Fin (3 / 1000))
     = Ok (map (fun e =>
                  Fin ((2 * e + 1 / sqrt (1 + 12 * (2 / 1000) / (3 / 1000)) - 1)
                       / (1 + 1 / sqrt (1 + 12 * (2 / 1000) / (3 / 1000))))) es)) /\
  exists out df,
    main Demo.cfg (map Fin Demo.freq_R) Demo.mag_db = (out, Ok df) /\
    length df = length (peaks_of Demo.cfg Demo.mag_db) /\
    forall i p, nth_error (peaks_of Demo.cfg Demo.mag_db) i = Some p ->
      exists r, nth_error df i = Some r /\
        mode_n r = Z.of_nat (i + 1) /\
        freq_Hz r = Fin (nth p Demo.freq_R 0) /\
        eps_eff r =
          Fin ((Exact.c0 * IZR (mode_n r) / (nth p Demo.freq_R 0 * (100 / 1000))) ^ 2) /\
        eps_r r =
          Fin ((2 * ((Exact.c0 * IZR (mode_n r)
                      / (nth p Demo.freq_R 0 * (100 / 1000))) ^ 2)
                + 1 / sqrt (1 + 12 * (2 / 1000) / (3 / 1000)) - 1)
               / (1 + 1 / sqrt (1 + 12 * (2 / 1000) / (3 / 1000)))).
Proof.
  apply (permittivity_calculator_formulas Demo.cfg Demo.freq_R Demo.mag_db
           (100 / 1000) (2 / 1000) (3 / 1000)).
  - reflexivity.
  - rewrite DemoFacts.peaks_of_demo. discriminate.
  - exact DemoFacts.freq_positive.
  - exact DemoFacts.length_of_demo.
  - lra.
  - exact DemoFacts.height_of_demo.
  - lra.
  - exact DemoFacts.width_of_demo.
  - lra.
Defined.




End PermittivityClaims.

(** * Length calibration (exact arithmetic) *)

Section CalibrationClaims.

Local Open Scope R_scope.
Local Set Warnings "-inexact-float".






End CalibrationClaims.

(** * Error handling of the driver *)

Section ErrorClaims.

Local Open Scope R_scope.

(** C4. When peak detection returns no peak, the run writes the threshold
    line and nothing else, and ends with the error
    [RuntimeError "No peaks detected; ..."]: no table, no averages, no CSV
    file and no figure are produced. *)
Theorem no_peaks_detected_aborts {T : Type} `{Float64 T}
  (cfg : config T) (freq mag_db : list T) :
  find_peaks mag_db (fadd (np_median mag_db) (MIN_PEAK_DB cfg)) = [] ->
  main cfg freq mag_db
  = ([PrintThreshold (fadd (np_median mag_db) (MIN_PEAK_DB cfg))],
     Raise (RuntimeError
              "No peaks detected; adjust MIN_PEAK_DB or check data."%string)).
Proof.
  intros Hnone. apply main_no_peaks. exact Hnone.
Qed.

(** C4 on the quiet trace, in binary64. *)
Lemma no_peaks_detected_aborts_witness :
  main DemoB64.cfg DemoB64.freq DemoB64.mag_quiet
  = ([PrintThreshold (fadd (np_median DemoB64.mag_quiet)
                           (MIN_PEAK_DB DemoB64.cfg))],
     Raise (RuntimeError
              "No peaks detected; adjust MIN_PEAK_DB or check data."%string)).
Proof.
  apply (no_peaks_detected_aborts DemoB64.cfg DemoB64.freq DemoB64.mag_quiet).
  vm_compute. reflexivity.
Defined.

(** ** Geometry *)

Lemma microstrip_eps_r_zero_width {T : Type} `{Float64 T}
  (eps_eff : list T) (h w : T) :
  feq w (of_Z 0) = true ->
  microstrip_eps_r eps_eff h w = Raise ZeroDivisionError.
Proof. intros Hw. unfold microstrip_eps_r, py_truediv. now rewrite Hw. Qed.

(** The claim C2 as stated fails: with [h = -1] and [w = 3] the argument of
    the square root is [1 + 12 h / w = -3 < 0], and the function raises
    nothing and returns NaN. *)
Lemma invalid_geometry_returns_nan :
  flt (fadd (of_Z 1) (fdiv (fmul (of_Z 12) (-1)%float) 3%float)) (of_Z 0) = true /\
  microstrip_eps_r [9%float] (-1)%float 3%float = Ok [PrimFloat.nan].
Proof. split; vm_compute; reflexivity. Qed.

(** C2 (amended). There is no geometry check.  For [w = 0] the run stops
    with Python's [ZeroDivisionError], raised by the division [12 h / w]
    itself; for [w <> 0] with [1 + 12 h / w <= 0] nothing is raised and
    every entry of the returned array is NaN. *)
Theorem invalid_geometry_behaviour (es : list R) (h w : R) :
  (w = 0 ->
   microstrip_eps_r (map Fin es) (Fin h) (Fin w) = Raise ZeroDivisionError) /\
  (w <> 0 -> 1 + 12 * h / w <= 0 ->
   microstrip_eps_r (map Fin es) (Fin h) (Fin w)
   = Ok (map (fun _ => NaN) es)).
Proof.
  split.
  - intros Hw. apply microstrip_eps_r_zero_width.
    apply ExactFacts.feq_Fin_zero. exact Hw.
  - intros Hw Hdom. unfold microstrip_eps_r, py_truediv.
    destruct (feq (Fin w) (of_Z 0)) eqn:E.
    { apply ExactFacts.feq_Fin_zero in E. contradiction. }
    cbn [rbind fmul fdiv fadd fsub fsqrt of_Z exact XR.mul].
    rewrite ExactFacts.div_Fin by exact Hw. cbn [XR.add].
    f_equal. rewrite map_map. apply map_ext. intros e.
    destruct (Rle_lt_or_eq_dec _ _ Hdom) as [Hneg|Hzero].
    + rewrite ExactFacts.sqrt_Fin_neg by exact Hneg. reflexivity.
    + rewrite Hzero. rewrite ExactFacts.sqrt_Fin by lra. rewrite sqrt_0.
      rewrite ExactFacts.div_Fin_zero by lra. reflexivity.
Qed.

(** Both cases of C2 (amended): [w = 0], and [h = -1], [w = 3]. *)
Lemma invalid_geometry_behaviour_witness :
  microstrip_eps_r (map Fin [9]) (Fin 1) (Fin 0) = Raise ZeroDivisionError /\
  microstrip_eps_r (map Fin [9]) (Fin (-1)) (Fin 3) = Ok (map (fun _ => NaN) [9]).
Proof.
  split.
  - apply (proj1 (invalid_geometry_behaviour [9] 1 0)). reflexivity.
  - apply (proj2 (invalid_geometry_behaviour [9] (-1) 3)); lra.
Defined.

(** ** Calibration input *)

(** The claim C7 as stated fails: with calibration enabled and a known
    frequency of [-1e9] the run raises nothing; a negative ring length is
    derived, printed, and the table is produced with it. *)
Lemma calibration_input_not_rejected :
  CALIBRATE_L DemoB64.cfg_bad_calibration = true /\
  fle (CALIBRATION_FREQ_HZ DemoB64.cfg_bad_calibration) (of_Z 0) = true /\
  flt (length_of DemoB64.cfg_bad_calibration) (of_Z 0) = true /\
  In (PrintCalibration (length_of DemoB64.cfg_bad_calibration))
     (fst (main DemoB64.cfg_bad_calibration DemoB64.freq DemoB64.mag_db)) /\
  snd (main DemoB64.cfg_bad_calibration DemoB64.freq DemoB64.mag_db)
  = Ok (table_of DemoB64.cfg_bad_calibration DemoB64.freq DemoB64.mag_db) /\
  length (table_of DemoB64.cfg_bad_calibration DemoB64.freq DemoB64.mag_db) = 2%nat.
Proof.
  repeat split; try (vm_compute; reflexivity).
  vm_compute. right. left. reflexivity.
Qed.

(** C7 (amended). With calibration enabled, a known permittivity or a
    known frequency that is zero or negative raises no error: for a mode
    number that converts to a float, the ring length is
    [estimate_effective_length] of the input, it is printed, and a run
    that found peaks on a trace of non-zero width returns the table
    computed with that length. *)
Theorem calibration_input_unchecked {T : Type} `{Float64 T}
  (cfg : config T) (freq mag_db : list T) :
  CALIBRATE_L cfg = true ->
  fle (CALIBRATION_EPSILON cfg) (of_Z 0) = true \/
  fle (CALIBRATION_FREQ_HZ cfg) (of_Z 0) = true ->
  int_converts (CALIBRATION_MODE_N cfg) ->
  length freq = length mag_db ->
  peaks_of cfg mag_db <> [] ->
  feq (width_of cfg) (of_Z 0) = false ->
  let L := estimate_effective_length (CALIBRATION_EPSILON cfg)
             (CALIBRATION_FREQ_HZ cfg) (CALIBRATION_MODE_N cfg) in
  length_of cfg = L /\
  In (PrintCalibration L) (fst (main cfg freq mag_db)) /\
  snd (main cfg freq mag_db) = Ok (table_of cfg freq mag_db).
Proof.
  intros Hcal _ _ Hlen Hsome Hw L.
  assert (HL : length_of cfg = L) by (unfold length_of; rewrite Hcal; reflexivity).
  split; [exact HL|].
  rewrite main_success by assumption.
  unfold calibration_events. rewrite Hcal, HL. cbn [fst snd app].
  split; [right; left; reflexivity | reflexivity].
Qed.

(** C7 (amended) on the run with the negative known frequency. *)
Lemma calibration_input_unchecked_witness :
  length_of DemoB64.cfg_bad_calibration
  = estimate_effective_length 4%float (-1e9)%float 1 /\
  In (PrintCalibration (estimate_effective_length 4%float (-1e9)%float 1))
     (fst (main DemoB64.cfg_bad_calibration DemoB64.freq DemoB64.mag_db)) /\
  snd (main DemoB64.cfg_bad_calibration DemoB64.freq DemoB64.mag_db)
  = Ok (table_of DemoB64.cfg_bad_calibration DemoB64.freq DemoB64.mag_db).
Proof.
  apply (calibration_input_unchecked DemoB64.cfg_bad_calibration
           DemoB64.freq DemoB64.mag_db).
  - reflexivity.
  - right. vm_compute. reflexivity.
  - vm_compute. reflexivity.
  - reflexivity.
  - vm_compute. discriminate.
  - vm_compute. reflexivity.
Defined.

End ErrorClaims.

(** * The loss estimator *)

Section LossClaims.

Local Open Scope R_scope.





(** On the folded axis the first peak has bandwidth [4 - 4 = 0] and gets
    NaN; the second one is unaffected: [Q = 6 / 2] and [tan = 1 / 3]. *)
Example loss_tangent_folded_trace :
  peaks_of DemoB64.cfg DemoB64.mag_db = [2%nat; 5%nat] /\
  bandwidth_at DemoB64.freq_folded DemoB64.mag_db 2 = 0%float /\
  calculate_loss_tangent DemoB64.freq_folded DemoB64.mag_db [2%nat; 5%nat]
  = Ok [PrimFloat.nan; PrimFloat.div 1 3].
Proof. repeat split; vm_compute; reflexivity. Qed.

(** ** The half-power window on a trace with increasing frequencies *)

Lemma increasing_le (fr : list R) (i j : nat) :
  strictly_increasing fr -> (i <= j < length fr)%nat ->
  nth i fr 0 <= nth j fr 0.
Proof.
  intros Hinc Hij. destruct (Nat.eq_dec i j) as [->|Hne]; [lra|].
  left. apply Hinc. lia.
Qed.

Lemma bandwidth_exact (fr : list R) (mag_db : list xreal) (p : nat) :
  length fr = length mag_db -> (p < length mag_db)%nat ->
  bandwidth_at (map Fin fr) mag_db p
  = Fin (nth (right_at mag_db p) fr 0 - nth (left_at mag_db p) fr 0).
Proof.
  intros Hlen Hp. unfold bandwidth_at.
  assert (Hl : (left_at mag_db p < length fr)%nat).
  { pose proof (search_left_le mag_db (half_mag_at mag_db p) p).
    unfold left_at. lia. }
  assert (Hr : (right_at mag_db p < length fr)%nat).
  { rewrite Hlen. apply search_right_lt_length. exact Hp. }
  rewrite !nth_map_Fin by assumption. reflexivity.
Qed.


Lemma loss_exact_cases (f0 bw : R) :
  loss_of_Q (Q_of (Fin f0) (Fin bw)) = NaN \/
  exists r, loss_of_Q (Q_of (Fin f0) (Fin bw)) = Fin r /\ 0 < r.
Proof.
  unfold Q_of, loss_of_Q. cbn [flt fdiv of_Z exact fnan].
  destruct (XR.lt (Fin 0) (Fin bw)) eqn:Ebw; [|left; reflexivity].
  apply XRFacts.lt_Fin in Ebw.
  rewrite ExactFacts.div_Fin by lra.
  destruct (XR.lt (Fin 0) (Fin (f0 / bw))) eqn:EQ; [|left; reflexivity].
  apply XRFacts.lt_Fin in EQ.
  right. exists (1 / (f0 / bw)).
  split; [apply ExactFacts.div_Fin; lra|].
  apply Rdiv_lt_0_compat; lra.
Qed.

(** C10. On a trace with strictly increasing frequencies, for in-range
    peaks: the two scans end with [left <= p <= right], so the bandwidth
    [f(right) - f(left)] is not negative; the loop returns one entry per
    peak, in peak order, and every entry is NaN or strictly positive. *)
Theorem half_power_window_invariant
  (fr : list R) (mag_db : list xreal) (peaks : list nat) :
  length fr = length mag_db ->
  strictly_increasing fr ->
  Forall (fun p => (p < length mag_db)%nat) peaks ->
  exists lts,
    calculate_loss_tangent (map Fin fr) mag_db peaks = Ok lts /\
    length lts = length peaks /\
    forall i p, nth_error peaks i = Some p ->
      (left_at mag_db p <= p <= right_at mag_db p)%nat /\
      bandwidth_at (map Fin fr) mag_db p
      = Fin (nth (right_at mag_db p) fr 0 - nth (left_at mag_db p) fr 0) /\
      0 <= nth (right_at mag_db p) fr 0 - nth (left_at mag_db p) fr 0 /\
      exists v, nth_error lts i = Some v /\
        loss_tangent_at (map Fin fr) mag_db p = Ok v /\
        (v = NaN \/ exists r, v = Fin r /\ 0 < r).
Proof.
  intros Hlen Hinc Hin.
  assert (Hlen' : length (map Fin fr) = length mag_db)
    by (rewrite length_map; exact Hlen).
  eexists.
  split; [apply calculate_loss_tangent_in_range; assumption|].
  split; [apply length_map|].
  intros i p Hi.
  assert (Hp : (p < length mag_db)%nat).
  { rewrite Forall_forall in Hin. apply Hin. eapply nth_error_In. exact Hi. }
  pose proof (search_left_le mag_db (half_mag_at mag_db p) p) as Hl.
  pose proof (search_right_ge mag_db (half_mag_at mag_db p) p) as Hr.
  pose proof (search_right_lt_length mag_db (half_mag_at mag_db p) p Hp) as Hr'.
  fold (left_at mag_db p) in Hl. fold (right_at mag_db p) in Hr, Hr'.
  split; [lia|].
  split; [apply bandwidth_exact; assumption|].
  split.
  - pose proof (increasing_le fr (left_at mag_db p) (right_at mag_db p) Hinc).
    assert (nth (left_at mag_db p) fr 0 <= nth (right_at mag_db p) fr 0)
      by (apply H; lia).
    lra.
  - eexists. split; [|split].
    + rewrite nth_error_map, Hi. reflexivity.
    + apply loss_tangent_at_in_range; assumption.
    + cbv beta. rewrite bandwidth_exact by assumption.
      rewrite nth_map_Fin by lia.
      apply loss_exact_cases.
Qed.

Lemma demo_freq_increasing : strictly_increasing Demo.freq_R.
Proof.
  intros i j Hij. unfold Demo.freq_R in *. simpl in Hij.
  destruct i as [|[|[|i]]], j as [|[|[|j]]]; simpl; try lia; lra.
Qed.

(** C10 on the three-sample trace. *)
Lemma half_power_window_invariant_witness :
  exists lts,
    calculate_loss_tangent (map Fin Demo.freq_R) Demo.mag_db [1%nat] = Ok lts /\
    length lts = length [1%nat] /\
    forall i p, nth_error [1%nat] i = Some p ->
      (left_at Demo.mag_db p <= p <= right_at Demo.mag_db p)%nat /\
      bandwidth_at (map Fin Demo.freq_R) Demo.mag_db p
      = Fin (nth (right_at Demo.mag_db p) Demo.freq_R 0
             - nth (left_at Demo.mag_db p) Demo.freq_R 0) /\
      0 <= nth (right_at Demo.mag_db p) Demo.freq_R 0
           - nth (left_at Demo.mag_db p) Demo.freq_R 0 /\
      exists v, nth_error lts i = Some v /\
        loss_tangent_at (map Fin Demo.freq_R) Demo.mag_db p = Ok v /\
        (v = NaN \/ exists r, v = Fin r /\ 0 < r).
Proof.
  apply (half_power_window_invariant Demo.freq_R Demo.mag_db [1%nat]).
  - reflexivity.
  - exact demo_freq_increasing.
  - repeat constructor.
Defined.

End LossClaims.

Section WindowClaims.

Local Set Warnings "-inexact-float".

(** C5, counterexample.  A strictly positive bandwidth is not enough for
    [1 / Q]: on the frequency axis [5e-324, 1e-323, 1e308] the window of
    the peak at index 1 has the bandwidth 1e308, the quotient
    [f0 / bw] underflows to 0, the test [Q > 0] fails and the entry is
    NaN. *)
Lemma loss_tangent_undefined_on_positive_bandwidth :
  flt (of_Z 0) (bandwidth_at DemoB64.freq_wide DemoB64.mag_single 1) = true /\
  fdiv (nth 1 DemoB64.freq_wide fnan)
       (bandwidth_at DemoB64.freq_wide DemoB64.mag_single 1) = 0%float /\
  calculate_loss_tangent DemoB64.freq_wide DemoB64.mag_single [1%nat]
  = Ok [PrimFloat.nan].
Proof. repeat split; vm_compute; reflexivity. Qed.

(** C5 (amended). For arrays of the same length and in-range peaks,
    [calculate_loss_tangent] returns one entry per peak, and for the peak
    [p] at position [i]: with [half_mag = mag(p) - 3], [left] is where the
    scan leftwards from [p] stops (every sample in [(left, p]] is above
    [half_mag], and [left = 0] or the sample at [left] is not above it),
    [right] is where the scan rightwards stops (every sample in
    [[p, right)] is above [half_mag], and [right] is the last index or its
    sample is not above it), and when the bandwidth
    [bw = f(right) - f(left)] is strictly positive, entry [i] is [1 / Q]
    with [Q = f(p) / bw] if the computed [Q] is strictly positive, and NaN
    if it is not. *)
Theorem loss_estimator_half_power {T : Type} `{Float64 T}
  (freq mag_db : list T) (peaks : list nat) :
  length freq = length mag_db ->
  Forall (fun p => p < length mag_db) peaks ->
  exists loss_tangents,
    calculate_loss_tangent freq mag_db peaks = Ok loss_tangents /\
    length loss_tangents = length peaks /\
    forall i p, nth_error peaks i = Some p ->
      let half_mag := fsub (nth p mag_db fnan) (of_Z 3) in
      let left := search_left mag_db half_mag p in
      let right := search_right mag_db half_mag p in
      let bw := fsub (nth right freq fnan) (nth left freq fnan) in
      let Q := fdiv (nth p freq fnan) bw in
      left_stop mag_db half_mag p left /\
      right_stop mag_db half_mag p right /\
      right < length mag_db /\
      (flt (of_Z 0) bw = true -> flt (of_Z 0) Q = true ->
       nth_error loss_tangents i = Some (fdiv (of_Z 1) Q)) /\
      (flt (of_Z 0) bw = true -> flt (of_Z 0) Q = false ->
       nth_error loss_tangents i = Some fnan).
Proof.
  intros Hlen Hin.
  exists (map (fun p => loss_of_Q (Q_of (nth p freq fnan)
                                        (bandwidth_at freq mag_db p))) peaks).
  split; [apply calculate_loss_tangent_in_range; assumption|].
  split; [apply length_map|].
  intros i p Hi half_mag left right bw Q.
  assert (Hp : p < length mag_db).
  { rewrite Forall_forall in Hin. apply Hin.
    eapply nth_error_In. exact Hi. }
  split; [apply search_left_stop|].
  split; [apply search_right_stop; exact Hp|].
  split; [apply search_right_lt_length; exact Hp|].
  rewrite nth_error_map, Hi. cbn [option_map].
  change (bandwidth_at freq mag_db p) with bw.
  unfold loss_of_Q, Q_of.
  split; intros Hbw HQ; rewrite Hbw; fold Q; rewrite HQ; reflexivity.
Qed.

(** C5 (amended) on the seven-sample trace: for the peak at index 2,
    [left = 1], [right = 3], the bandwidth is [4 - 2] and the entry is
    [1 / (3 / 2)]. *)
Lemma loss_estimator_half_power_witness :
  exists loss_tangents,
    calculate_loss_tangent DemoB64.freq DemoB64.mag_db [2; 5]
    = Ok loss_tangents /\
    length loss_tangents = 2 /\
    search_left DemoB64.mag_db (fsub 20 3)%float 2 = 1 /\
    search_right DemoB64.mag_db (fsub 20 3)%float 2 = 3 /\
    nth_error loss_tangents 0 = Some (fdiv 1 (fdiv 3 (fsub 4 2)))%float.
Proof.
  destruct (loss_estimator_half_power DemoB64.freq DemoB64.mag_db [2; 5])
    as (lts & Hrun & Hlen & Hall).
  - reflexivity.
  - repeat constructor; simpl; lia.
  - exists lts. split; [exact Hrun|]. split; [exact Hlen|].
    split; [vm_compute; reflexivity|]. split; [vm_compute; reflexivity|].
    destruct (Hall 0 2 eq_refl) as (_ & _ & _ & Hpos & _).
    apply Hpos; vm_compute; reflexivity.
Defined.

End WindowClaims.

(** * The peak detector *)

Section PeakClaims.

(** The claim C8 as stated fails on a flat top: on the trace
    [0, 0, 0, 5, 5, 5, 0, 0, 0] with [min_peak_db = 3] the threshold is
    [0 + 3] and the index 4 is reported, although the sample at 4 equals
    both of its neighbours. *)
Lemma plateau_sample_reported :
  find_s21_peaks DemoB64.mag_plateau 3%float
  = ([PrintThreshold 3%float], Ok [4%nat]) /\
  ~ strict_local_maximum DemoB64.mag_plateau 4.
Proof.
  split; [vm_compute; reflexivity|].
  intros (_ & _ & Hleft & _). vm_compute in Hleft. discriminate.
Qed.

(** C8 (amended). If every sample is below [median + min_peak_db] no peak
    is reported; and a reported peak [p] always has magnitude at or above
    that threshold and is the middle (rounded down) of a run [l..r] of
    equal samples whose neighbours on both sides are strictly smaller. *)
Theorem find_s21_peaks_sound {T : Type} `{Float64Order T}
  (mag_db : list T) (min_peak_db : T) :
  let threshold := fadd (np_median mag_db) min_peak_db in
  ((forall v, In v mag_db -> flt v threshold = true) ->
   find_s21_peaks mag_db min_peak_db = ([PrintThreshold threshold], Ok [])) /\
  (forall peaks p,
     snd (find_s21_peaks mag_db min_peak_db) = Ok peaks -> In p peaks ->
     fle threshold (nth p mag_db fnan) = true /\
     exists l r, flat_peak mag_db l r /\ p = (l + r) / 2).
Proof.
  intros threshold. split.
  - intros Hbelow. unfold find_s21_peaks. fold threshold.
    rewrite find_peaks_below_threshold by exact Hbelow. reflexivity.
  - intros peaks p Hrun Hin. unfold find_s21_peaks in Hrun.
    fold threshold in Hrun. cbn in Hrun. injection Hrun as <-.
    apply find_peaks_sound. exact Hin.
Qed.

Lemma quiet_below_threshold (v : float) :
  In v DemoB64.mag_quiet ->
  flt v (fadd (np_median DemoB64.mag_quiet) 16%float) = true.
Proof.
  intros Hv. unfold DemoB64.mag_quiet in Hv. simpl in Hv.
  repeat (destruct Hv as [<-|Hv]; [vm_compute; reflexivity|]).
  contradiction.
Qed.

(** C8 (amended): the quiet trace lies below its threshold and yields no
    peak; the peak reported on the plateau trace is the middle of a flat
    run at or above the threshold. *)
Lemma find_s21_peaks_sound_witness :
  find_s21_peaks DemoB64.mag_quiet 16%float
  = ([PrintThreshold (fadd (np_median DemoB64.mag_quiet) 16%float)], Ok []) /\
  (fle (fadd (np_median DemoB64.mag_plateau) 3%float)
       (nth 4 DemoB64.mag_plateau fnan) = true /\
   exists l r, flat_peak DemoB64.mag_plateau l r /\ 4%nat = (l + r) / 2).
Proof.
  split.
  - apply (proj1 (find_s21_peaks_sound DemoB64.mag_quiet 16%float)).
    exact quiet_below_threshold.
  - apply (proj2 (find_s21_peaks_sound DemoB64.mag_plateau 3%float) [4%nat] 4%nat).
    + vm_compute. reflexivity.
    + left. reflexivity.
Defined.

(** The flat top of the plateau trace is the run [3..5], reported by its
    middle [(3 + 5) / 2 = 4]. *)
Example plateau_flat_peak : flat_peak DemoB64.mag_plateau 3 5.
Proof.
  unfold flat_peak. repeat split; try (simpl; lia); try (vm_compute; reflexivity).
  intros j Hj. assert (j = 4%nat \/ j = 5%nat) as [-> | ->] by lia;
    vm_compute; reflexivity.
Qed.

End PeakClaims.

(** * Runs in binary64

    The formulas evaluated in the arithmetic of the script, on the values
    of its CONFIG block. *)

Section Binary64Runs.

Local Set Warnings "-inexact-float".

(** First mode at 1 GHz on the 100 mm ring. *)
Example eps_eff_first_mode :
  ring_eps_eff (fdiv 100 1000)%float 1 1e9%float = 8.9875517873681758%float.
Proof. vm_compute. reflexivity. Qed.

(** [h = 1.6 mm], [w = 3 mm], [eps_eff = 8.988]. *)
Example eps_r_default_geometry :
  microstrip_eps_r [8.988%float] (fdiv 1.6 1000)%float (fdiv 3 1000)%float
  = Ok [12.68171584851383%float].
Proof. vm_compute. reflexivity. Qed.

(** The calibration round trip at the values of the CONFIG block stays
    within [1e-9] of the known permittivity. *)
Example round_trip_default_calibration :
  let L := estimate_effective_length 4.2%float 1e9%float 1 in
  ring_eps_eff L 1 1e9%float = 4.2000000000000011%float /\
  fle (PrimFloat.abs (fsub (ring_eps_eff L 1 1e9%float) 4.2%float))
      (fmul 1e-9 4.2)%float = true.
Proof. split; vm_compute; reflexivity. Qed.

(** A width of zero stops the run at the division, after the threshold
    line. *)
Example zero_width_run :
  main {| RING_LENGTH_MM := 100; SUBSTRATE_H_MM := 1.5; TRACE_W_MM := 0;
          MIN_PEAK_DB := 16; SAVE_CSV := None; SHOW_PLOT := false;
          CALIBRATE_L := false; CALIBRATION_FREQ_HZ := 1e9;
          CALIBRATION_EPSILON := 4; CALIBRATION_MODE_N := 1 |}%float
       DemoB64.freq DemoB64.mag_db
  = ([PrintThreshold 16%float], Raise ZeroDivisionError).
Proof. vm_compute. reflexivity. Qed.

(** Conversion of an int: exact up to [2^53], rounded to nearest above,
    and infinite from [2^1024 - 2^970] on, where Python raises
    [OverflowError] instead. *)
Example int_conversion :
  of_Z (2 ^ 63)%Z = 9223372036854775808%float /\
  of_Z (2 ^ 53 + 1)%Z = 9007199254740992%float /\
  of_Z (2 ^ 1024 - 2 ^ 970 - 1)%Z = 1.7976931348623157e308%float /\
  of_Z (2 ^ 1024 - 2 ^ 970)%Z = infinity.
Proof. repeat split; vm_compute; reflexivity. Qed.

End Binary64Runs.

(** * Further properties: the peak detector and the outcomes of a run *)

(** * More on the peak detector *)

Section PeakOrder.

Context {T : Type} `{Float64 T}.

Lemma local_maxima_loop_lower (x : list T) (fuel i p : nat) :
  1 <= i ->
  In p (local_maxima_loop x (length x - 1) fuel i) -> i <= p.
Proof.
  intros Hi Hin.
  destruct (local_maxima_loop_sound x fuel i p Hi Hin) as (l & r & Hfp & -> & Hl).
  destruct Hfp as (_ & Hlr & _).
  pose proof (Nat.div_mod_eq (l + r) 2) as Hdm.
  pose proof (Nat.mod_upper_bound (l + r) 2) as Hmod.
  lia.
Qed.

(** Two maxima found by the scan are separated by a lower sample: their
    indices differ by at least two. *)
Lemma local_maxima_loop_spaced (x : list T) (fuel i : nat) :
  1 <= i ->
  StronglySorted (fun p q => p + 2 <= q)
    (local_maxima_loop x (length x - 1) fuel i).
Proof.
  revert i. induction fuel as [|fuel IH]; intros i Hi; cbn [local_maxima_loop].
  - constructor.
  - destruct (Nat.ltb_spec i (length x - 1)) as [Hlt|Hge]; [|constructor].
    pose proof (skip_equal_spec x (nth i x fnan) (length x - 1 - (i + 1)) (i + 1))
      as (Hb & _ & _). cbv zeta in Hb.
    set (i_ahead := skip_equal x (nth i x fnan) (i + 1) (length x - 1 - (i + 1)))
      in *.
    destruct (flt (nth (i - 1) x fnan) (nth i x fnan)).
    + destruct (flt (nth i_ahead x fnan) (nth i x fnan)).
      * constructor; [apply IH; lia|].
        apply Forall_forall. intros q Hq.
        apply local_maxima_loop_lower in Hq; [|lia].
        cbv beta.
        pose proof (Nat.div_mod_eq (i + (i_ahead - 1)) 2) as Hdm.
        pose proof (Nat.mod_upper_bound (i + (i_ahead - 1)) 2) as Hmod.
        lia.
      * apply IH. lia.
    + apply IH. lia.
Qed.

Lemma StronglySorted_filter_keep {A} (R : A -> A -> Prop) (f : A -> bool)
  (l : list A) :
  StronglySorted R l -> StronglySorted R (filter f l).
Proof.
  induction 1 as [|a l Hs IH Hall]; simpl; [constructor|].
  destruct (f a); [|exact IH].
  constructor; [exact IH|].
  apply Forall_forall. intros b Hb. apply filter_In in Hb.
  rewrite Forall_forall in Hall. apply Hall. tauto.
Qed.

Lemma find_peaks_spaced (x : list T) (height : T) :
  StronglySorted (fun p q => p + 2 <= q) (find_peaks x height).
Proof.
  unfold find_peaks, local_maxima_1d.
  apply StronglySorted_filter_keep. apply local_maxima_loop_spaced. lia.
Qed.

(** X1. [find_s21_peaks] always returns: it prints the threshold and
    reports indices that are interior to the trace (never the first or
    the last sample), in ascending order, any two at least two apart. *)
Theorem find_s21_peaks_interior_spaced (mag_db : list T) (min_peak_db : T) :
  exists peaks,
    find_s21_peaks mag_db min_peak_db
    = ([PrintThreshold (fadd (np_median mag_db) min_peak_db)], Ok peaks) /\
    Forall (fun p => 1 <= p /\ p + 1 < length mag_db) peaks /\
    StronglySorted (fun p q => p + 2 <= q) peaks.
Proof.
  eexists. split; [reflexivity|].
  split; [apply find_peaks_in_range | apply find_peaks_spaced].
Qed.

(** X3. A trace with fewer than three samples has no interior sample:
    no peak is reported and the run ends with the no-peaks error,
    whatever the frequencies and the configuration are. *)
Theorem short_trace_aborts (cfg : config T) (freq mag_db : list T) :
  length mag_db < 3 ->
  main cfg freq mag_db
  = ([PrintThreshold (fadd (np_median mag_db) (MIN_PEAK_DB cfg))],
     Raise (RuntimeError
              "No peaks detected; adjust MIN_PEAK_DB or check data."%string)).
Proof.
  intros Hshort. apply main_no_peaks. unfold peaks_of.
  pose proof (find_peaks_in_range mag_db (threshold_of cfg mag_db)) as Hr.
  destruct (find_peaks mag_db (threshold_of cfg mag_db)) as [|p ps]; [reflexivity|].
  apply Forall_inv in Hr. lia.
Qed.

(** The three ways a run on arrays of the same length can go. *)
Lemma main_cases (cfg : config T) (freq mag_db : list T) :
  length freq = length mag_db ->
  (peaks_of cfg mag_db = [] /\
   main cfg freq mag_db
   = ([PrintThreshold (threshold_of cfg mag_db)],
      Raise (RuntimeError
               "No peaks detected; adjust MIN_PEAK_DB or check data."%string)))
  \/
  (peaks_of cfg mag_db <> [] /\ feq (width_of cfg) (of_Z 0) = true /\
   main cfg freq mag_db
   = (PrintThreshold (threshold_of cfg mag_db) :: calibration_events cfg,
      Raise ZeroDivisionError))
  \/
  (peaks_of cfg mag_db <> [] /\ feq (width_of cfg) (of_Z 0) = false /\
   main cfg freq mag_db
   = (PrintThreshold (threshold_of cfg mag_db) :: calibration_events cfg
        ++ report_events cfg (length (peaks_of cfg mag_db))
             (table_of cfg freq mag_db),
      Ok (table_of cfg freq mag_db))).
Proof.
  intros Hlen.
  destruct (peaks_of cfg mag_db) as [|p ps] eqn:Ep.
  - left. split; [reflexivity|]. apply main_no_peaks. exact Ep.
  - assert (Hsome : peaks_of cfg mag_db <> []) by (rewrite Ep; discriminate).
    rewrite <- Ep.
    destruct (feq (width_of cfg) (of_Z 0)) eqn:Ew.
    + right. left. split; [exact Hsome|]. split; [reflexivity|].
      apply main_zero_width; assumption.
    + right. right. split; [exact Hsome|]. split; [reflexivity|].
      apply main_success; assumption.
Qed.

(** X5. With frequency and magnitude arrays of the same length, and a
    calibration mode number that converts to a float when calibration is
    enabled, a run has exactly three outcomes: no peak, the no-peaks error
    after the threshold line; peaks and zero width, [ZeroDivisionError]
    after the threshold and calibration lines; otherwise the table, after
    the full report.  In particular it never raises [IndexError], and the
    table, the averages line, the CSV file and the figures are written by
    successful runs only. *)
Theorem main_outcomes (cfg : config T) (freq mag_db : list T) :
  (CALIBRATE_L cfg = true -> int_converts (CALIBRATION_MODE_N cfg)) ->
  length freq = length mag_db ->
  (peaks_of cfg mag_db = [] /\
   main cfg freq mag_db
   = ([PrintThreshold (threshold_of cfg mag_db)],
      Raise (RuntimeError
               "No peaks detected; adjust MIN_PEAK_DB or check data."%string)))
  \/
  (peaks_of cfg mag_db <> [] /\ feq (width_of cfg) (of_Z 0) = true /\
   main cfg freq mag_db
   = (PrintThreshold (threshold_of cfg mag_db) :: calibration_events cfg,
      Raise ZeroDivisionError))
  \/
  (peaks_of cfg mag_db <> [] /\ feq (width_of cfg) (of_Z 0) = false /\
   main cfg freq mag_db
   = (PrintThreshold (threshold_of cfg mag_db) :: calibration_events cfg
        ++ report_events cfg (length (peaks_of cfg mag_db))
             (table_of cfg freq mag_db),
      Ok (table_of cfg freq mag_db))).
Proof. intros _. exact (main_cases cfg freq mag_db). Qed.

(** X7. The loss-tangent loop stops with [IndexError] as soon as one peak
    index lies outside the magnitude array. *)
Theorem calculate_loss_tangent_index_error
  (freq mag_db : list T) (peaks : list nat) :
  length freq = length mag_db ->
  Exists (fun p => length mag_db <= p) peaks ->
  calculate_loss_tangent freq mag_db peaks = Raise IndexError.
Proof.
  intros Hlen Hex. unfold calculate_loss_tangent.
  induction Hex as [p ps Hp|p ps Hex IH]; simpl.
  - rewrite loss_tangent_at_out_of_range by exact Hp. reflexivity.
  - destruct (Nat.lt_ge_cases p (length mag_db)) as [Hin|Hout].
    + rewrite loss_tangent_at_in_range by assumption. cbn [rbind].
      rewrite IH. reflexivity.
    + rewrite loss_tangent_at_out_of_range by exact Hout. reflexivity.
Qed.

(** X8. When every sample between the trace boundary and the peak is
    above the half-power level, the scan runs to the boundary and uses the
    boundary sample, whatever its magnitude: [left = 0], and on the other
    side [right] is the last index. *)
Theorem half_power_window_at_boundary (mag_db : list T) (half_mag : T) (p : nat) :
  p < length mag_db ->
  (forall j, 1 <= j <= p -> flt half_mag (nth j mag_db fnan) = true) ->
  (forall j, p <= j < length mag_db - 1 -> flt half_mag (nth j mag_db fnan) = true) ->
  search_left mag_db half_mag p = 0 /\
  search_right mag_db half_mag p = length mag_db - 1.
Proof.
  intros Hp Hleft Hright. split.
  - destruct (search_left_stop mag_db half_mag p) as (Hle & _ & [H0|Hstop]);
      [exact H0|].
    destruct (Nat.eq_dec (search_left mag_db half_mag p) 0) as [E|E]; [exact E|].
    rewrite Hleft in Hstop by lia. discriminate.
  - destruct (search_right_stop mag_db half_mag p Hp) as (Hge & _ & [Hl|Hstop]);
      [exact Hl|].
    pose proof (search_right_lt_length mag_db half_mag p Hp) as Hlt.
    destruct (Nat.eq_dec (search_right mag_db half_mag p) (length mag_db - 1))
      as [E|E]; [exact E|].
    rewrite Hright in Hstop by lia. discriminate.
Qed.

End PeakOrder.

(** * NaN samples *)

Module B64NaN.

Lemma leb_nan_sum (y x : float) :
  PrimFloat.leb (PrimFloat.add PrimFloat.nan y) x = false.
Proof.
  rewrite leb_spec, add_spec.
  change (Prim2SF PrimFloat.nan) with S754_nan.
  reflexivity.
Qed.

End B64NaN.

#[export] Instance binary64_nan : Float64NaN float.
Proof. constructor. exact B64NaN.leb_nan_sum. Qed.

#[export] Instance exact_nan : Float64NaN xreal.
Proof. constructor. intros y x. destruct y, x; reflexivity. Qed.

Section NaNSample.

Context {T : Type} `{Float64NaN T}.

(** X4. One NaN sample anywhere in the trace makes the median, hence the
    threshold, NaN; no peak passes it, and the run ends with the no-peaks
    error after printing that threshold. *)
Theorem nan_sample_aborts (cfg : config T) (freq mag_db : list T) :
  existsb fisnan mag_db = true ->
  main cfg freq mag_db
  = ([PrintThreshold (fadd fnan (MIN_PEAK_DB cfg))],
     Raise (RuntimeError
              "No peaks detected; adjust MIN_PEAK_DB or check data."%string)).
Proof.
  intros Hnan.
  assert (Hthr : threshold_of cfg mag_db = fadd fnan (MIN_PEAK_DB cfg)).
  { unfold threshold_of, np_median. rewrite Hnan. reflexivity. }
  rewrite <- Hthr. apply main_no_peaks.
  unfold peaks_of, find_peaks. rewrite Hthr.
  induction (local_maxima_1d mag_db) as [|p ps IH]; simpl; [reflexivity|].
  rewrite fle_nan_sum. exact IH.
Qed.

End NaNSample.

(** X4 at a concrete input. *)
Lemma nan_sample_aborts_witness :
  main DemoB64.cfg DemoB64.freq DemoEdge.mag_nan
  = ([PrintThreshold (fadd fnan (MIN_PEAK_DB DemoB64.cfg))],
     Raise (RuntimeError
              "No peaks detected; adjust MIN_PEAK_DB or check data."%string)).
Proof.
  apply (nan_sample_aborts DemoB64.cfg DemoB64.freq DemoEdge.mag_nan).
  vm_compute. reflexivity.
Defined.

(** * The window of a detected peak *)

Section WindowOfDetectedPeak.

Local Open Scope R_scope.






End WindowOfDetectedPeak.

(** * Degenerate calibration input *)

Section FormulaFacts.

Local Open Scope R_scope.

(** X12. Degenerate calibration input, for a positive known frequency: a
    known permittivity of 0 gives an infinite ring length, with which the
    effective permittivity of every mode is 0; a negative one gives the
    length NaN, with which it is NaN. *)
Theorem calibration_degenerate_permittivity (eps f g : R) (n m : Z) :
  0 < f -> (0 < n)%Z -> 0 < g ->
  (eps = 0 ->
   estimate_effective_length (Fin eps) (Fin f) n = PInf /\
   ring_eps_eff PInf m (Fin g) = Fin 0) /\
  (eps < 0 ->
   estimate_effective_length (Fin eps) (Fin f) n = NaN /\
   ring_eps_eff NaN m (Fin g) = NaN).
Proof.
  intros Hf Hn Hg. apply IZR_lt in Hn. split.
  - intros ->. split.
    + unfold estimate_effective_length. rewrite ExactFacts.C0_exact.
      cbn [fmul fdiv fsqrt of_Z exact].
      rewrite ExactFacts.sqrt_Fin by lra. rewrite sqrt_0. cbn [XR.mul].
      rewrite Rmult_0_r. apply ExactFacts.div_Fin_zero.
      apply Rmult_lt_0_compat; [unfold Exact.c0; lra | exact Hn].
    + unfold ring_eps_eff. rewrite ExactFacts.C0_exact.
      cbn [fmul fdiv of_Z exact XR.mul]. unfold XR.scale_inf.
      rewrite (proj2 (XRFacts.eqb_false g 0)) by lra.
      rewrite (proj2 (XRFacts.ltb_true 0 g)) by lra.
      cbn. f_equal. ring.
  - intros He. split.
    + unfold estimate_effective_length. rewrite ExactFacts.C0_exact.
      cbn [fmul fdiv fsqrt of_Z exact].
      rewrite ExactFacts.sqrt_Fin_neg by exact He. reflexivity.
    + reflexivity.
Qed.

End FormulaFacts.

(** * The table of a run *)

Section PipelineFacts.

Local Open Scope R_scope.

Lemma StronglySorted_nth_error {A} (R : A -> A -> Prop) (l : list A)
  (i j : nat) (a b : A) :
  StronglySorted R l -> (i < j)%nat ->
  nth_error l i = Some a -> nth_error l j = Some b -> R a b.
Proof.
  intros Hs. revert i j.
  induction Hs as [|x l Hs IH Hall]; intros i j Hij Hi Hj.
  - destruct i; discriminate.
  - destruct j as [|j]; [lia|]. destruct i as [|i]; simpl in *.
    + injection Hi as <-. rewrite Forall_forall in Hall.
      apply Hall. eapply nth_error_In. exact Hj.
    + apply (IH i j); [lia | assumption | assumption].
Qed.

Lemma peaks_of_spaced {T : Type} `{Float64 T} (cfg : config T) (mag_db : list T) :
  StronglySorted (fun p q => (p + 2 <= q)%nat) (peaks_of cfg mag_db).
Proof.
  apply find_peaks_spaced.
Qed.

(** X10. In the table a run returns on a strictly increasing frequency
    axis, the mode numbers are 1, 2, 3, ... in row order and the resonant
    frequencies are strictly increasing: modes are numbered in ascending
    frequency, without gaps. *)
Theorem modes_numbered_in_ascending_frequency
  (cfg : config xreal) (fr : list R) (mag_db : list xreal)
  (out : list (event xreal)) (df : list (row xreal)) :
  length fr = length mag_db ->
  strictly_increasing fr ->
  main cfg (map Fin fr) mag_db = (out, Ok df) ->
  (forall i r, nth_error df i = Some r -> mode_n r = Z.of_nat (i + 1)) /\
  (forall i j ri rj, (i < j)%nat ->
     nth_error df i = Some ri -> nth_error df j = Some rj ->
     exists a b, freq_Hz ri = Fin a /\ freq_Hz rj = Fin b /\ a < b).
Proof.
  intros Hlen Hinc Hrun.
  assert (Hlen' : length (map Fin fr) = length mag_db)
    by (rewrite length_map; exact Hlen).
  assert (Hdf : df = table_of cfg (map Fin fr) mag_db).
  { destruct (main_cases cfg (map Fin fr) mag_db Hlen')
      as [(_ & E)|[(_ & _ & E)|(_ & _ & E)]];
      rewrite E in Hrun; injection Hrun as _ Hrun; congruence. }
  subst df. unfold table_of in *.
  pose proof (peaks_lt_length cfg mag_db) as Hin.
  rewrite Forall_forall in Hin.
  assert (Hrow : forall i r,
             nth_error (rows_from cfg (map Fin fr) mag_db 0 (peaks_of cfg mag_db)) i
             = Some r ->
             exists p, nth_error (peaks_of cfg mag_db) i = Some p /\
                       r = row_of cfg (map Fin fr) mag_db i p).
  { intros i r Hi.
    assert (Hlt : (i < length (peaks_of cfg mag_db))%nat).
    { rewrite <- (length_rows_from cfg (map Fin fr) mag_db (peaks_of cfg mag_db) 0).
      apply nth_error_Some. congruence. }
    destruct (nth_error (peaks_of cfg mag_db) i) as [p|] eqn:Ep.
    - exists p. split; [reflexivity|].
      rewrite (nth_error_rows_from cfg (map Fin fr) mag_db _ 0 i p Ep) in Hi.
      injection Hi as <-. reflexivity.
    - apply nth_error_None in Ep. lia. }
  split.
  - intros i r Hi. destruct (Hrow i r Hi) as (p & _ & ->). reflexivity.
  - intros i j ri rj Hij Hi Hj.
    destruct (Hrow i ri Hi) as (p & Hp & ->).
    destruct (Hrow j rj Hj) as (q & Hq & ->).
    pose proof (StronglySorted_nth_error _ _ i j p q
                  (peaks_of_spaced cfg mag_db) Hij Hp Hq) as Hpq.
    cbv beta in Hpq.
    assert (Hqr : (q < length fr)%nat)
      by (rewrite Hlen; apply Hin; eapply nth_error_In; exact Hq).
    exists (nth p fr 0), (nth q fr 0).
    unfold row_of. cbn [freq_Hz].
    rewrite !nth_map_Fin by lia.
    split; [reflexivity|]. split; [reflexivity|].
    apply Hinc. lia.
Qed.

End PipelineFacts.

(** * Equal samples: the comparison laws in both arithmetics *)

Module B64Eq.

Lemma SFcompare_Eq_left (a v b : spec_float) :
  SFcompare a v = Some Eq -> SFcompare a b = SFcompare v b.
Proof.
  destruct a as [s1|s1| |s1 m1 e1], v as [s2|s2| |s2 m2 e2]; simpl;
    try discriminate;
    try (destruct s1; discriminate);
    try (destruct s2; discriminate).
  - intros _. destruct b; reflexivity.
  - destruct s1, s2; try discriminate; reflexivity.
  - destruct s1, s2; try discriminate;
      destruct (e1 ?= e2)%Z eqn:Ee; try discriminate;
      apply Z.compare_eq in Ee; subst e2;
      change (PosDef.Pos.compare_cont Eq m1 m2) with (Pos.compare m1 m2);
      destruct (m1 ?= m2)%positive eqn:Em; try discriminate;
      apply Pos.compare_eq in Em; subst m2; reflexivity.
Qed.

Lemma SFcompare_Eq_right (a v b : spec_float) :
  SFcompare a v = Some Eq -> SFcompare b a = SFcompare b v.
Proof.
  destruct a as [s1|s1| |s1 m1 e1], v as [s2|s2| |s2 m2 e2]; simpl;
    try discriminate;
    try (destruct s1; discriminate);
    try (destruct s2; discriminate).
  - intros _. destruct b; reflexivity.
  - destruct s1, s2; try discriminate; reflexivity.
  - destruct s1, s2; try discriminate;
      destruct (e1 ?= e2)%Z eqn:Ee; try discriminate;
      apply Z.compare_eq in Ee; subst e2;
      change (PosDef.Pos.compare_cont Eq m1 m2) with (Pos.compare m1 m2);
      destruct (m1 ?= m2)%positive eqn:Em; try discriminate;
      apply Pos.compare_eq in Em; subst m2; reflexivity.
Qed.

Lemma SFcompare_refl_not_Lt (a : spec_float) : SFcompare a a <> Some Lt.
Proof.
  destruct a as [s|s| |s m e]; simpl; try discriminate.
  - destruct s; discriminate.
  - rewrite Z.compare_refl.
    change (PosDef.Pos.compare_cont Eq m m) with (Pos.compare m m).
    rewrite Pos.compare_refl. destruct s; discriminate.
Qed.

Lemma eqb_ltb_left (a v b : float) :
  PrimFloat.eqb a v = true -> PrimFloat.ltb a b = PrimFloat.ltb v b.
Proof.
  rewrite FloatAxioms.eqb_spec, !FloatAxioms.ltb_spec. unfold SFeqb, SFltb.
  destruct (SFcompare (Prim2SF a) (Prim2SF v)) as [[| |]|] eqn:E; try discriminate.
  intros _. rewrite (SFcompare_Eq_left _ _ (Prim2SF b) E). reflexivity.
Qed.

Lemma eqb_ltb_right (a v b : float) :
  PrimFloat.eqb a v = true -> PrimFloat.ltb b a = PrimFloat.ltb b v.
Proof.
  rewrite FloatAxioms.eqb_spec, !FloatAxioms.ltb_spec. unfold SFeqb, SFltb.
  destruct (SFcompare (Prim2SF a) (Prim2SF v)) as [[| |]|] eqn:E; try discriminate.
  intros _. rewrite (SFcompare_Eq_right _ _ (Prim2SF b) E). reflexivity.
Qed.

Lemma ltb_irrefl (a : float) : PrimFloat.ltb a a = false.
Proof.
  rewrite FloatAxioms.ltb_spec. unfold SFltb.
  pose proof (SFcompare_refl_not_Lt (Prim2SF a)) as Hn.
  destruct (SFcompare (Prim2SF a) (Prim2SF a)) as [[| |]|]; congruence.
Qed.

Lemma ltb_asym (a b : float) :
  PrimFloat.ltb a b = true -> PrimFloat.ltb b a = false.
Proof.
  rewrite !FloatAxioms.ltb_spec. unfold SFltb.
  destruct (SFcompare (Prim2SF a) (Prim2SF b)) as [[| |]|] eqn:E; try discriminate.
  intros _. rewrite (B64Order.SFcompare_Lt_swap _ _ E). reflexivity.
Qed.

Lemma ltb_not_eqb (a b : float) :
  PrimFloat.ltb a b = true -> PrimFloat.eqb a b = false.
Proof.
  rewrite FloatAxioms.ltb_spec, FloatAxioms.eqb_spec. unfold SFltb, SFeqb.
  destruct (SFcompare (Prim2SF a) (Prim2SF b)) as [[| |]|]; congruence.
Qed.

End B64Eq.

#[export] Instance binary64_eq : Float64Eq float.
Proof.
  constructor.
  - exact B64Eq.eqb_ltb_left.
  - exact B64Eq.eqb_ltb_right.
  - exact B64Eq.ltb_irrefl.
  - exact B64Eq.ltb_asym.
  - exact B64Eq.ltb_not_eqb.
Qed.

#[export] Instance exact_eq : Float64Eq xreal.
Proof.
  constructor.
  - intros [a| | |] [v| | |] [b| | |]; simpl; intros E; try discriminate;
      try reflexivity; apply XRFacts.eqb_true in E; subst; reflexivity.
  - intros [a| | |] [v| | |] [b| | |]; simpl; intros E; try discriminate;
      try reflexivity; apply XRFacts.eqb_true in E; subst; reflexivity.
  - intros [a| | |]; simpl; try reflexivity. apply XRFacts.ltb_false. lra.
  - intros [a| | |] [b| | |]; simpl; intros E; try discriminate;
      try reflexivity. apply XRFacts.ltb_true in E. apply XRFacts.ltb_false. lra.
  - intros [a| | |] [b| | |]; simpl; intros E; try discriminate;
      try reflexivity. apply XRFacts.ltb_true in E. apply XRFacts.eqb_false. lra.
Qed.

(** * Completeness of the peak detector *)

Section PeakCompleteness.

Context {T : Type} `{Float64Eq T}.

(** A sample of the run [(i, i_ahead)] of samples equal to [x[i]], or [i]
    itself, compares like [x[i]]. *)
Lemma run_sample_left (x : list T) (i a j : nat) (b : T) :
  (forall k, i + 1 <= k < a -> feq (nth k x fnan) (nth i x fnan) = true) ->
  i <= j < a ->
  flt (nth j x fnan) b = flt (nth i x fnan) b.
Proof.
  intros Hrun Hj. destruct (Nat.eq_dec j i) as [->|Hne]; [reflexivity|].
  apply feq_flt_left. apply Hrun. lia.
Qed.

(** The start of a flat peak is not inside the run that follows an
    earlier maximum, nor at the sample that ends it. *)
Lemma flat_peak_not_skipped (x : list T) (l r i a : nat) :
  flat_peak x l r ->
  (forall k, i + 1 <= k < a -> feq (nth k x fnan) (nth i x fnan) = true) ->
  flt (nth a x fnan) (nth i x fnan) = true ->
  i < l -> i + 1 <= a -> a + 1 <= l.
Proof.
  intros (H1 & _ & _ & Hup & _) Hrun Hdown Hil Hia.
  destruct (Nat.le_gt_cases (a + 1) l) as [Hok|Hbad]; [exact Hok|exfalso].
  assert (Hprev : flt (nth (l - 1) x fnan) (nth l x fnan)
                  = flt (nth i x fnan) (nth l x fnan))
    by (apply (run_sample_left x i a); [exact Hrun | lia]).
  rewrite Hprev in Hup.
  destruct (Nat.eq_dec l a) as [->|Hne].
  - apply flt_asym in Hdown. congruence.
  - rewrite (feq_flt_right (nth l x fnan) (nth i x fnan)) in Hup
      by (apply Hrun; lia).
    rewrite flt_irrefl in Hup. discriminate.
Qed.

(** From the start of a flat peak the inner loop stops just after it. *)
Lemma skip_equal_flat_peak (x : list T) (l r : nat) :
  flat_peak x l r ->
  skip_equal x (nth l x fnan) (l + 1) (length x - 1 - (l + 1)) = r + 1.
Proof.
  intros (H1 & Hlr & Hr & _ & Heq & Hdown).
  pose proof (skip_equal_spec x (nth l x fnan) (length x - 1 - (l + 1)) (l + 1))
    as (Hb & Hrun & Hend). cbv zeta in Hb, Hrun, Hend.
  set (a := skip_equal x (nth l x fnan) (l + 1) (length x - 1 - (l + 1))) in *.
  destruct (Nat.lt_trichotomy a (r + 1)) as [Hlt|[E|Hgt]]; [exfalso|exact E|exfalso].
  - destruct Hend as [Hend|Hend]; [lia|].
    rewrite Heq in Hend by lia. discriminate.
  - assert (Hx : feq (nth (r + 1) x fnan) (nth l x fnan) = true)
      by (apply Hrun; lia).
    apply flt_not_feq in Hdown. congruence.
Qed.

Lemma local_maxima_loop_complete (x : list T) (l r : nat) :
  flat_peak x l r ->
  forall fuel i, 1 <= i <= l -> length x - 1 - i <= fuel ->
  In ((l + r) / 2) (local_maxima_loop x (length x - 1) fuel i).
Proof.
  intros Hfp. pose proof Hfp as (H1 & Hlr & Hr & Hup & Heq & Hdown).
  induction fuel as [|fuel IH]; intros i Hi Hfuel; [lia|].
  cbn [local_maxima_loop].
  destruct (Nat.ltb_spec i (length x - 1)) as [Hlt|Hge]; [|lia].
  pose proof (skip_equal_spec x (nth i x fnan) (length x - 1 - (i + 1)) (i + 1))
    as (Hb & Hrun & _). cbv zeta in Hb, Hrun.
  destruct (Nat.eq_dec i l) as [->|Hne].
  - rewrite Hup, (skip_equal_flat_peak x l r Hfp), Hdown.
    left. f_equal. lia.
  - set (a := skip_equal x (nth i x fnan) (i + 1) (length x - 1 - (i + 1))) in *.
    destruct (flt (nth (i - 1) x fnan) (nth i x fnan)).
    + destruct (flt (nth a x fnan) (nth i x fnan)) eqn:Ed.
      * right. apply IH; [|lia].
        pose proof (flat_peak_not_skipped x l r i a Hfp Hrun Ed). lia.
      * apply IH; lia.
    + apply IH; lia.
Qed.

(** X2. The detector reports exactly the flat maxima that reach the
    height: an index is reported if and only if its sample is at or above
    [height] and it is the middle (rounded down) of a run of equal
    samples with a strictly smaller sample on each side.  In particular
    no strict local maximum at or above the threshold is missed. *)
Theorem find_peaks_characterised (x : list T) (height : T) (p : nat) :
  In p (find_peaks x height) <->
  fle height (nth p x fnan) = true /\
  exists l r, flat_peak x l r /\ p = (l + r) / 2.
Proof.
  split; [apply find_peaks_sound|].
  intros (Hh & l & r & Hfp & ->).
  unfold find_peaks, local_maxima_1d. apply filter_In. split; [|exact Hh].
  apply local_maxima_loop_complete; [exact Hfp| |lia].
  destruct Hfp as (H1 & _). lia.
Qed.

End PeakCompleteness.

(** * The CSV export *)

Section CsvExport.

Context {T : Type} `{Float64 T}.

Lemma csv_requested_some (p : option string) (path : string) :
  csv_requested p = Some path <-> p = Some path /\ path <> EmptyString.
Proof.
  unfold csv_requested. split.
  - destruct p as [[|c s]|]; intros E; try discriminate.
    injection E as <-. split; [reflexivity | discriminate].
  - intros (-> & Hne). destruct path; [contradiction | reflexivity].
Qed.

(** X6. With arrays of the same length, the CSV file is written exactly
    by the runs that return the table and have a non-empty [SAVE_CSV]
    path, and what is written is the returned table: a run that fails
    writes no CSV. *)
Theorem csv_written_on_success_only
  (cfg : config T) (freq mag_db : list T) (path : string) (df : list (row T)) :
  length freq = length mag_db ->
  (In (SaveCsv path df) (fst (main cfg freq mag_db)) <->
   snd (main cfg freq mag_db) = Ok df /\
   SAVE_CSV cfg = Some path /\ path <> EmptyString).
Proof.
  intros Hlen.
  destruct (main_cases cfg freq mag_db Hlen)
    as [(_ & E)|[(_ & _ & E)|(_ & _ & E)]]; rewrite E; cbn [fst snd].
  - split; [intros [F|[]]; discriminate | intros (F & _); discriminate].
  - split; [|intros (F & _); discriminate].
    unfold calibration_events. destruct (CALIBRATE_L cfg); simpl; intuition discriminate.
  - rewrite <- csv_requested_some. unfold calibration_events, report_events.
    split.
    + intros Hin.
      assert (Hcsv : csv_requested (SAVE_CSV cfg) = Some path /\
                     df = table_of cfg freq mag_db).
      { destruct (CALIBRATE_L cfg), (csv_requested (SAVE_CSV cfg)) as [q|],
          (SHOW_PLOT cfg); simpl in Hin;
          repeat (destruct Hin as [Hin|Hin]; try discriminate; try contradiction);
          injection Hin as -> ->; split; reflexivity. }
      destruct Hcsv as (-> & ->). split; reflexivity.
    + intros (Hok & Hcsv). injection Hok as <-. rewrite Hcsv.
      destruct (CALIBRATE_L cfg), (SHOW_PLOT cfg); simpl; tauto.
Qed.

End CsvExport.

(** * Instances of the properties above *)

Module DemoTwoFacts.

Import DemoTwo.

Local Open Scope R_scope.

Lemma lt_Fin_false (a b : R) : b <= a -> XR.lt (Fin a) (Fin b) = false.
Proof. intros Hab. simpl. apply XRFacts.ltb_false. exact Hab. Qed.

Lemma lt_Fin_true (a b : R) : a < b -> XR.lt (Fin a) (Fin b) = true.
Proof. apply XRFacts.lt_Fin. Qed.

Lemma eq_Fin_false (a b : R) : a <> b -> XR.eq (Fin a) (Fin b) = false.
Proof. intros Hab. simpl. apply XRFacts.eqb_false. exact Hab. Qed.

Lemma eq_Fin_true (a b : R) : a = b -> XR.eq (Fin a) (Fin b) = true.
Proof. intros Hab. simpl. apply XRFacts.eqb_true. exact Hab. Qed.

(** Evaluation of a scan over real samples, one comparison at a time. *)
Ltac xr_scan :=
  repeat (cbn [local_maxima_loop skip_equal search_left search_right_from
               nth length map Nat.ltb Nat.leb Nat.sub Nat.add
               flt feq exact];
          match goal with
          | |- context [XR.lt (Fin ?a) (Fin ?b)] =>
              first [rewrite (lt_Fin_true a b) by lra
                    | rewrite (lt_Fin_false a b) by lra]
          | |- context [XR.eq (Fin ?a) (Fin ?b)] =>
              first [rewrite (eq_Fin_true a b) by lra
                    | rewrite (eq_Fin_false a b) by lra]
          end).

Lemma median_two : np_median (map Fin mag_R) = Fin 0.
Proof. unfold np_median. xr_eval. f_equal. lra. Qed.

Lemma maxima_two : local_maxima_1d (map Fin mag_R) = [1%nat; 3%nat].
Proof. unfold local_maxima_1d, mag_R. xr_scan. reflexivity. Qed.

Lemma peaks_of_two : peaks_of cfg (map Fin mag_R) = [1%nat; 3%nat].
Proof.
  unfold peaks_of, threshold_of, find_peaks.
  rewrite median_two, maxima_two. xr_eval.
Qed.

Lemma width_of_two : feq (width_of cfg) (of_Z 0) = false.
Proof. unfold width_of. xr_eval. Qed.


Lemma freq_increasing_two : strictly_increasing freq_R.
Proof.
  intros i j Hij. unfold freq_R in *. simpl in Hij.
  destruct i as [|[|[|[|[|i]]]]], j as [|[|[|[|[|j]]]]]; simpl; try lia; lra.
Qed.

End DemoTwoFacts.

Section Witnesses.

Local Open Scope R_scope.

(** X3 at a concrete input. *)
Lemma short_trace_aborts_witness :
  main DemoB64.cfg DemoB64.freq DemoEdge.mag_short
  = ([PrintThreshold (fadd (np_median DemoEdge.mag_short)
                           (MIN_PEAK_DB DemoB64.cfg))],
     Raise (RuntimeError
              "No peaks detected; adjust MIN_PEAK_DB or check data."%string)).
Proof.
  apply (short_trace_aborts DemoB64.cfg DemoB64.freq DemoEdge.mag_short).
  simpl. lia.
Defined.

(** X7 at a concrete input. *)
Lemma calculate_loss_tangent_index_error_witness :
  calculate_loss_tangent DemoB64.freq DemoB64.mag_db [2%nat; 9%nat; 5%nat]
  = Raise IndexError.
Proof.
  apply calculate_loss_tangent_index_error.
  - reflexivity.
  - apply Exists_cons_tl. apply Exists_cons_hd. simpl. lia.
Defined.

(** X8 at a concrete input. *)
Lemma half_power_window_at_boundary_witness :
  search_left DemoEdge.mag_broad 8%float 2 = 0%nat /\
  search_right DemoEdge.mag_broad 8%float 2 = (length DemoEdge.mag_broad - 1)%nat.
Proof.
  apply (half_power_window_at_boundary DemoEdge.mag_broad 8%float 2).
  - simpl. lia.
  - intros j Hj. assert (j = 1%nat \/ j = 2%nat) as [-> | ->] by lia;
      vm_compute; reflexivity.
  - intros j Hj. simpl in Hj.
    assert (j = 2%nat \/ j = 3%nat) as [-> | ->] by lia; vm_compute; reflexivity.
Defined.

(** X5 at a concrete input. *)
Lemma main_outcomes_witness :
  (peaks_of DemoB64.cfg DemoB64.mag_db = [] /\
   main DemoB64.cfg DemoB64.freq DemoB64.mag_db
   = ([PrintThreshold (threshold_of DemoB64.cfg DemoB64.mag_db)],
      Raise (RuntimeError
               "No peaks detected; adjust MIN_PEAK_DB or check data."%string)))
  \/
  (peaks_of DemoB64.cfg DemoB64.mag_db <> [] /\
   feq (width_of DemoB64.cfg) (of_Z 0) = true /\
   main DemoB64.cfg DemoB64.freq DemoB64.mag_db
   = (PrintThreshold (threshold_of DemoB64.cfg DemoB64.mag_db)
        :: calibration_events DemoB64.cfg,
      Raise ZeroDivisionError))
  \/
  (peaks_of DemoB64.cfg DemoB64.mag_db <> [] /\
   feq (width_of DemoB64.cfg) (of_Z 0) = false /\
   main DemoB64.cfg DemoB64.freq DemoB64.mag_db
   = (PrintThreshold (threshold_of DemoB64.cfg DemoB64.mag_db)
        :: calibration_events DemoB64.cfg
        ++ report_events DemoB64.cfg (length (peaks_of DemoB64.cfg DemoB64.mag_db))
             (table_of DemoB64.cfg DemoB64.freq DemoB64.mag_db),
      Ok (table_of DemoB64.cfg DemoB64.freq DemoB64.mag_db))).
Proof.
  apply (main_outcomes DemoB64.cfg DemoB64.freq DemoB64.mag_db).
  - discriminate.
  - reflexivity.
Defined.


(** X12 at a concrete input. *)
Lemma calibration_degenerate_permittivity_witness :
  (estimate_effective_length (Fin 0) (Fin 2) 1 = PInf /\
   ring_eps_eff PInf 1 (Fin 2) = Fin 0) /\
  (estimate_effective_length (Fin (-4)) (Fin 2) 1 = NaN /\
   ring_eps_eff NaN 1 (Fin 2) = NaN).
Proof.
  split.
  - apply (proj1 (calibration_degenerate_permittivity 0 2 2 1 1
                    ltac:(lra) ltac:(lia) ltac:(lra))).
    reflexivity.
  - apply (proj2 (calibration_degenerate_permittivity (-4) 2 2 1 1
                    ltac:(lra) ltac:(lia) ltac:(lra))).
    lra.
Defined.

(** X10 at a concrete input. *)
Lemma modes_numbered_in_ascending_frequency_witness :
  let df := table_of DemoTwo.cfg (map Fin DemoTwo.freq_R) (map Fin DemoTwo.mag_R) in
  (forall i r, nth_error df i = Some r -> mode_n r = Z.of_nat (i + 1)) /\
  (forall i j ri rj, (i < j)%nat ->
     nth_error df i = Some ri -> nth_error df j = Some rj ->
     exists a b, freq_Hz ri = Fin a /\ freq_Hz rj = Fin b /\ a < b).
Proof.
  eapply (modes_numbered_in_ascending_frequency DemoTwo.cfg DemoTwo.freq_R
            (map Fin DemoTwo.mag_R)).
  - reflexivity.
  - exact DemoTwoFacts.freq_increasing_two.
  - apply main_success.
    + reflexivity.
    + rewrite DemoTwoFacts.peaks_of_two. discriminate.
    + exact DemoTwoFacts.width_of_two.
Defined.

(** X2 on the plateau trace: the flat top [3..5] reaches the height 3, so
    its middle is reported. *)
Lemma find_peaks_characterised_witness :
  In 4%nat (find_peaks DemoB64.mag_plateau 3%float).
Proof.
  apply (proj2 (find_peaks_characterised DemoB64.mag_plateau 3%float 4)).
  split; [vm_compute; reflexivity|].
  exists 3%nat, 5%nat. split; [exact plateau_flat_peak | reflexivity].
Defined.

(** X6 on the two-resonance trace with the export requested. *)
Lemma csv_written_on_success_only_witness :
  In (SaveCsv "results.csv"%string
        (table_of DemoEdge.cfg_csv DemoB64.freq DemoB64.mag_db))
     (fst (main DemoEdge.cfg_csv DemoB64.freq DemoB64.mag_db)).
Proof.
  apply (proj2 (csv_written_on_success_only DemoEdge.cfg_csv DemoB64.freq
                  DemoB64.mag_db "results.csv"%string
                  (table_of DemoEdge.cfg_csv DemoB64.freq DemoB64.mag_db)
                  eq_refl)).
  split; [vm_compute; reflexivity|].
  split; [reflexivity | discriminate].
Defined.

(** The degenerate calibration in binary64: permittivity 0 gives the
    length [+inf] and then [eps_eff = 0]; a negative one gives NaN. *)
Example calibration_degenerate_binary64 :
  estimate_effective_length 0%float 1e9%float 1 = infinity /\
  ring_eps_eff infinity 2 2e9%float = 0%float /\
  estimate_effective_length (-4)%float 1e9%float 1 = nan /\
  ring_eps_eff nan 2 2e9%float = nan.
Proof. repeat split; vm_compute; reflexivity. Qed.

End Witnesses.
